(** * ServerPilot dashboard: client-side liveness contract

    A shallow embedding of the front-end pieces that implement the
    "Client Reconnector & Display Smoother" of the panel:

    - [ServerDetailPage]: the rolling metric history of the detail page
      (frontend/src/pages/ServerDetailPage.jsx);
    - [Poller]: the server-side liveness state machine, as described by the
      specification (the back end is not part of the front-end sources);
    - [ServerCard]: the debounced online flag of a dashboard card
      (components/ServerCard.jsx);
    - [UseWebSocket]: the reconnecting subscription hook
      (hooks/useWebSocket.js).

    React state cells ([useState]) and refs ([useRef]) are fields of a state
    record; handlers are functions on that record; the browser (sockets,
    timers, localStorage, console) is an explicit part of the state. *)

From Stdlib Require Import ZArith Bool String Lia Arith List.
From Stdlib Require Import DecimalString.
From Stdlib Require QArith Qround Qminmax Qabs Lqa.
Import ListNotations.

Local Open Scope Z_scope.

(* ------------------------------------------------------------------------- *)
(** ** Rolling metric history (ServerDetailPage.jsx)                          *)
(* ------------------------------------------------------------------------- *)

Module ServerDetailPage.

Definition MAX_HISTORY : nat := 60.

(** [arr.slice(-n)] for a positive [n]: the relative start [-n] is turned
    into [max (length + (-n)) 0], and the elements from there to the end
    are copied.  Truncated subtraction on [nat] is that [max]. *)
Definition slice_last {A : Type} (n : nat) (arr : list A) : list A :=
  skipn (length arr - n) arr.

(** The updater passed to [setHistory]:
    [(prev) => { const next = [...prev, point]; return next.slice(-MAX_HISTORY) }]. *)
Definition push_point {A : Type} (prev : list A) (point : A) : list A :=
  let next := prev ++ [point] in
  slice_last MAX_HISTORY next.

Section Page.

(** One entry of [wsData.servers], a chart point, the remembered network
    counters ([prevNetRef.current]) and a wall-clock reading ([new Date()]).
    Their numeric fields are JavaScript doubles; the history buffer never
    looks inside them, so they stay abstract. *)
Variables Metrics Point NetSample Instant : Type.

(** [s.server_id] *)
Variable server_id : Metrics -> Z.
(** The object literal [point] built from [m], the clock and the previous
    network sample. *)
Variable make_point : Instant -> option NetSample -> Metrics -> Point.
(** [{ time: now, sent: m.net_bytes_sent, recv: m.net_bytes_recv }] *)
Variable net_sample : Instant -> Metrics -> NetSample.

Record page : Type := mkPage {
  metrics : option Metrics;        (* useState(null) *)
  history : list Point;            (* useState([])   *)
  prevNetRef : option NetSample    (* useRef(null)   *)
}.

Definition initial_page : page :=
  {| metrics := None; history := []; prevNetRef := None |}.

(** [wsData?.servers]: [None] when [wsData] is null or has no [servers]. *)
Definition ws_payload : Type := option (option (list Metrics)).

(** [wsData.servers.find((s) => s.server_id === parseInt(id))]; the route
    parameter parses to [None] when [parseInt] yields NaN, which is
    [===] to nothing. *)
Definition viewed (id : option Z) (wsData : ws_payload) : option Metrics :=
  match wsData with
  | Some (Some servers) =>
      find (fun s => match id with
                     | Some i => server_id s =? i
                     | None => false
                     end) servers
  | _ => None
  end.

(** The effect that runs when [wsData] (or [id]) changes. *)
Definition on_ws_data (id : option Z) (now : Instant) (wsData : ws_payload)
    (p : page) : page :=
  match viewed id wsData with
  | None => p
  | Some m =>
      {| metrics := Some m;
         history := push_point (history p) (make_point now (prevNetRef p) m);
         prevNetRef := Some (net_sample now m) |}
  end.

(** A run of the page: the successive broadcast frames with the clock
    reading at which each effect ran. *)
Fixpoint run (id : option Z) (p : page) (frames : list (Instant * ws_payload))
    : page :=
  match frames with
  | [] => p
  | (now, wsData) :: rest => run id (on_ws_data id now wsData p) rest
  end.

End Page.

Arguments metrics {Metrics Point NetSample} _.
Arguments history {Metrics Point NetSample} _.
Arguments prevNetRef {Metrics Point NetSample} _.
Arguments initial_page {Metrics Point NetSample}.

End ServerDetailPage.

(* ------------------------------------------------------------------------- *)
(** ** Server-side liveness hysteresis (specification section 4.2)            *)
(* ------------------------------------------------------------------------- *)

Module Poller.

(** Modelled from the spec: the back-end poller that owns [LivenessState]
    is not among the front-end sources (only the comment above
    [OFFLINE_GRACE_MS] in ServerCard.jsx mentions its 3-failure threshold).
    The definitions below follow section 3 (data model) and section 4.2
    (Poller) of the specification word for word. *)
Definition OFFLINE_THRESHOLD : nat := 3.

(** Modelled from the spec: [LivenessState] of section 3, with the latest
    metrics snapshot kept next to it (the snapshot body is opaque here). *)
Record LivenessState : Type := mkLiveness {
  consecutive_failures : nat;
  is_online : bool;
  last_seen : option Z;
  last_error : option string;
  snapshot : option string
}.

(** Modelled from the spec: the outcome of one poll.  A success carries the
    time of the poll and the parsed metrics body; a failure (timeout,
    refused connection, non-200, unparseable body, auth rejection) carries
    its description. *)
Inductive outcome : Type :=
| Success (now : Z) (body : string)
| Failure (err : string).

(** Modelled from the spec: the state created on registration; the spec
    fixes no initial [is_online], so it is a parameter. *)
Definition registered (online : bool) : LivenessState :=
  {| consecutive_failures := 0; is_online := online; last_seen := None;
     last_error := None; snapshot := None |}.

(** Modelled from the spec: "On success: set consecutive_failures = 0,
    is_online = true, last_seen = now, replace MetricsSnapshot.  On
    failure: increment consecutive_failures; only when
    consecutive_failures >= OFFLINE_THRESHOLD does is_online flip to false;
    below the threshold the prior is_online value and the prior
    MetricsSnapshot are retained unchanged." *)
Definition poll (s : LivenessState) (o : outcome) : LivenessState :=
  match o with
  | Success now body =>
      {| consecutive_failures := 0; is_online := true; last_seen := Some now;
         last_error := last_error s; snapshot := Some body |}
  | Failure err =>
      let n := S (consecutive_failures s) in
      {| consecutive_failures := n;
         is_online := if (OFFLINE_THRESHOLD <=? n)%nat then false
                      else is_online s;
         last_seen := last_seen s;
         last_error := Some err;
         snapshot := snapshot s |}
  end.

Definition polls (s : LivenessState) (os : list outcome) : LivenessState :=
  fold_left poll os s.

Definition is_failure (o : outcome) : bool :=
  match o with Failure _ => true | Success _ _ => false end.

(** Number of failures at the end of a poll history (most recent last). *)
Fixpoint trailing_failures_rev (rev_os : list outcome) : nat :=
  match rev_os with
  | o :: rest => if is_failure o then S (trailing_failures_rev rest) else 0%nat
  | [] => 0%nat
  end.

Definition trailing_failures (os : list outcome) : nat :=
  trailing_failures_rev (rev os).

End Poller.

(* ------------------------------------------------------------------------- *)
(** ** Debounced online flag of a dashboard card (ServerCard.jsx)             *)
(* ------------------------------------------------------------------------- *)

Module ServerCard.

(** [const OFFLINE_GRACE_MS = 12_000] *)
Definition OFFLINE_GRACE_MS : Z := 12000.

(** The part of the props the debounce reads: [metrics?.is_online] and
    [server.is_online], each [None] when null or undefined. *)
Record props : Type := mkProps {
  metrics_is_online : option bool;
  server_is_online : option bool
}.

(** [a ?? b] *)
Definition nullish {A : Type} (a : option A) (b : A) : A :=
  match a with
  | Some x => x
  | None => b
  end.

(** [const rawOnline = metrics?.is_online ?? server.is_online ?? false] *)
Definition rawOnline (p : props) : bool :=
  nullish (metrics_is_online p) (nullish (server_is_online p) false).

(** The component instance together with the browser's clock and timer
    table.  A pending timer is its handle and the instant (ms) at which it
    is due; every timer of this component runs the same callback. *)
Record card : Type := mkCard {
  isOnline : bool;                 (* useState(rawOnline)               *)
  offlineTimerRef : option nat;    (* useRef(null)                      *)
  lastRaw : bool;                  (* [rawOnline] seen by the last run
                                      of the debounce effect (its deps) *)
  now : Z;                         (* clock, in ms                      *)
  pending : list (nat * Z);        (* timers set, not fired nor cleared *)
  next_handle : nat                (* next handle setTimeout returns    *)
}.

Definition set_isOnline (b : bool) (c : card) : card :=
  mkCard b (offlineTimerRef c) (lastRaw c) (now c) (pending c) (next_handle c).
Definition set_offlineTimerRef (r : option nat) (c : card) : card :=
  mkCard (isOnline c) r (lastRaw c) (now c) (pending c) (next_handle c).
Definition set_lastRaw (b : bool) (c : card) : card :=
  mkCard (isOnline c) (offlineTimerRef c) b (now c) (pending c) (next_handle c).
Definition set_now (t : Z) (c : card) : card :=
  mkCard (isOnline c) (offlineTimerRef c) (lastRaw c) t (pending c) (next_handle c).
Definition set_pending (l : list (nat * Z)) (c : card) : card :=
  mkCard (isOnline c) (offlineTimerRef c) (lastRaw c) (now c) l (next_handle c).

(** [clearTimeout(h)]: forget the timer with that handle, if it is pending. *)
Definition clearTimeout (h : nat) (l : list (nat * Z)) : list (nat * Z) :=
  filter (fun e => negb (fst e =? h)%nat) l.

(** [setTimeout(callback, delay)]: a fresh handle, due [delay] ms from now.
    Handles are positive, so a stored handle is truthy. *)
Definition setTimeout (delay : Z) (c : card) : nat * card :=
  let h := next_handle c in
  (h, mkCard (isOnline c) (offlineTimerRef c) (lastRaw c) (now c)
             (pending c ++ [(h, now c + delay)]) (S h)).

(** [() => { setIsOnline(false); offlineTimerRef.current = null }] *)
Definition timer_callback (c : card) : card :=
  set_offlineTimerRef None (set_isOnline false c).

(** Body of the effect with dependency list [[rawOnline]]. *)
Definition debounce_effect (raw : bool) (c : card) : card :=
  if raw then
    let c1 := match offlineTimerRef c with
              | Some h =>
                  set_offlineTimerRef None
                    (set_pending (clearTimeout h (pending c)) c)
              | None => c
              end in
    set_isOnline true c1
  else
    match offlineTimerRef c with
    | None =>
        let (h, c1) := setTimeout OFFLINE_GRACE_MS c in
        set_offlineTimerRef (Some h) c1
    | Some _ => c
    end.

(** The pending timer that is due first (the one set first among equals). *)
Fixpoint earliest (l : list (nat * Z)) : option (nat * Z) :=
  match l with
  | [] => None
  | e :: rest =>
      match earliest rest with
      | Some e' => if snd e' <? snd e then Some e' else Some e
      | None => Some e
      end
  end.

(** One turn of the timer phase of the event loop: if a timer is due at or
    before [limit], it leaves the table and its callback runs at its due
    time. *)
Definition fire_next (limit : Z) (c : card) : option card :=
  match earliest (pending c) with
  | Some (h, due) =>
      if due <=? limit then
        Some (timer_callback
                (set_now (Z.max (now c) due)
                   (set_pending (clearTimeout h (pending c)) c)))
      else None
  | None => None
  end.

Fixpoint fire_due (fuel : nat) (limit : Z) (c : card) : card :=
  match fuel with
  | O => c
  | S fuel' =>
      match fire_next limit c with
      | Some c' => fire_due fuel' limit c'
      | None => c
      end
  end.

(** Let the clock reach [t]: every timer due by then fires, in due order.
    A callback sets no timer, so one turn per pending timer is enough. *)
Definition advance (t : Z) (c : card) : card :=
  let c' := fire_due (length (pending c)) t c in
  set_now (Z.max (now c') t) c'.

(** First render and commit at instant [t]: [useState(rawOnline)], a null
    ref, then the debounce effect runs for the first time. *)
Definition first_render (t : Z) (p : props) : card :=
  mkCard (rawOnline p) None (rawOnline p) t [] 1%nat.

Definition mount (t : Z) (p : props) : card :=
  debounce_effect (rawOnline p) (first_render t p).

(** A later render with new props at instant [t]: the effect runs only when
    [rawOnline] differs from the value it last ran with. *)
Definition render (t : Z) (p : props) (c : card) : card :=
  let c1 := advance t c in
  let raw := rawOnline p in
  if Bool.eqb raw (lastRaw c1) then c1
  else debounce_effect raw (set_lastRaw raw c1).

(** Cleanup of the second effect:
    [if (offlineTimerRef.current) clearTimeout(offlineTimerRef.current)]. *)
Definition unmount (c : card) : card :=
  match offlineTimerRef c with
  | Some h => set_pending (clearTimeout h (pending c)) c
  | None => c
  end.

Fixpoint run (c : card) (updates : list (Z * props)) : card :=
  match updates with
  | [] => c
  | (t, p) :: rest => run (render t p c) rest
  end.

(** What the card shows: the class of the status dot,
    [isOnline ? 'online' : 'offline'] (the gauges or the OFFLINE banner
    follow the same flag). *)
Definition status_dot (c : card) : string :=
  if isOnline c then "online"%string else "offline"%string.

(** The card as seen at instant [t], all earlier updates applied. *)
Definition shown_at (t : Z) (c : card) : string :=
  status_dot (advance t c).

(** *** Invariants of the card *)

(** At most one grace timer is pending, and the ref holds its handle. *)
Definition single_timer (c : card) : Prop :=
  match offlineTimerRef c with
  | None => pending c = []
  | Some h => exists due, pending c = [(h, due)]
  end.

(** While the raw flag is true the card shows online and no timer runs. *)
Definition card_wf (c : card) : Prop :=
  single_timer c /\
  (lastRaw c = true -> isOnline c = true /\ offlineTimerRef c = None).

(** The state of a card inside the grace window opened at [t1]: it shows
    online, and whatever timer is pending is not due before the window
    ends. *)
Definition in_grace (t1 : Z) (c : card) : Prop :=
  card_wf c /\ isOnline c = true /\
  t1 <= now c < t1 + OFFLINE_GRACE_MS /\
  (forall h due, pending c = [(h, due)] -> t1 + OFFLINE_GRACE_MS <= due).

(** The state of a card after the first [false] at a time when its timer is
    due at [due], while no [true] has arrived since: either the timer is
    still pending and the card shows online, or it has fired and the card
    shows offline. *)
Definition counting_down (due : Z) (c : card) : Prop :=
  lastRaw c = false /\
  ((isOnline c = true /\ now c < due /\
    exists h, pending c = [(h, due)] /\ offlineTimerRef c = Some h) \/
   (isOnline c = false /\ due <= now c /\
    pending c = [] /\ offlineTimerRef c = None)).

(** *** Sample props *)

Definition online_props : props := mkProps (Some true) None.
Definition offline_props : props := mkProps (Some false) (Some true).

End ServerCard.

(* ------------------------------------------------------------------------- *)
(** ** Reconnecting subscription (hooks/useWebSocket.js)                      *)
(* ------------------------------------------------------------------------- *)

Module UseWebSocket.

(** [WebSocket.readyState] *)
Inductive readyState : Type := CONNECTING | OPEN | CLOSING | CLOSED.

(** What the hook writes to the console. *)
Inductive console_line : Type :=
| Warn_parse (payload : string)   (* '[WebSocket] Failed to parse message:' *)
| Log_reconnect (delay : Z)       (* `Disconnected. Reconnecting in ${delay}ms...` *)
| Warn_error (ws : nat).          (* '[WebSocket] Error:' *)

(** What happens to the hook: React runs or cleans up its effect, the
    component calls one of the returned functions, a socket created by the
    hook dispatches an event, a pending timer elapses, or the stored token
    changes (login, logout). *)
Inductive event : Type :=
| Mount
| Unmount
| CallReconnect
| CallDisconnect
| WsOpen (ws : nat)
| WsMessage (ws : nat) (payload : string)
| WsError (ws : nat)
| WsClose (ws : nat)
| Timeout (handle : nat)
| SetToken (tok : option string).

(** [!token] for the result of [localStorage.getItem]: null and the empty
    string are falsy. *)
Definition no_token (tok : option string) : bool :=
  match tok with
  | None => true
  | Some EmptyString => true
  | Some _ => false
  end.

(** [Math.min(1000 * Math.pow(2, n), 30000)].  The doubles involved are
    exact powers of two times 1000 until they overflow to Infinity, and
    [Math.min] then still answers 30000, so integers compute the same
    value for every [n]. *)
Definition backoff_delay (n : nat) : Z :=
  Z.min (1000 * 2 ^ Z.of_nat n) 30000.

(** [clearTimeout(ref)]; null, or a handle that is no longer pending,
    clears nothing. *)
Definition clearTimeout (r : option nat) (l : list (nat * Z)) : list (nat * Z) :=
  match r with
  | Some h => filter (fun e => negb (fst e =? h)%nat) l
  | None => l
  end.

Definition is_pending (h : nat) (l : list (nat * Z)) : bool :=
  existsb (fun e => (fst e =? h)%nat) l.

(** In-place update of one cell of a list (sockets are numbered by their
    position, in creation order). *)
Fixpoint set_nth {A : Type} (i : nat) (x : A) (l : list A) : list A :=
  match l, i with
  | [], _ => []
  | _ :: rest, O => x :: rest
  | y :: rest, S i' => y :: set_nth i' x rest
  end.

Section Hook.

(** The parsed broadcast frame and [JSON.parse]; [None] stands for the
    SyntaxError it throws on text that is not valid JSON. *)
Variable Frame : Type.
Variable JSON_parse : string -> option Frame.

Record hook : Type := mkHook {
  data : option Frame;               (* useState(null)            *)
  status : string;                   (* useState('disconnected')  *)
  wsRef : option nat;                (* useRef(null)              *)
  reconnectTimeoutRef : option nat;  (* useRef(null)              *)
  retryCountRef : nat;               (* useRef(0)                 *)
  isMountedRef : bool;               (* useRef(true)              *)
  token : option string;             (* localStorage 'serverpilot_token' *)
  sockets : list readyState;         (* every socket created so far      *)
  timers : list (nat * Z);           (* pending setTimeout(connect, delay):
                                        handle and delay                 *)
  next_handle : nat;                 (* next handle setTimeout returns   *)
  console : list console_line        (* newest first                     *)
}.

Definition set_data (d : option Frame) (h : hook) : hook :=
  mkHook d (status h) (wsRef h) (reconnectTimeoutRef h) (retryCountRef h)
    (isMountedRef h) (token h) (sockets h) (timers h) (next_handle h) (console h).
Definition set_status (s : string) (h : hook) : hook :=
  mkHook (data h) s (wsRef h) (reconnectTimeoutRef h) (retryCountRef h)
    (isMountedRef h) (token h) (sockets h) (timers h) (next_handle h) (console h).
Definition set_wsRef (r : option nat) (h : hook) : hook :=
  mkHook (data h) (status h) r (reconnectTimeoutRef h) (retryCountRef h)
    (isMountedRef h) (token h) (sockets h) (timers h) (next_handle h) (console h).
Definition set_reconnectTimeoutRef (r : option nat) (h : hook) : hook :=
  mkHook (data h) (status h) (wsRef h) r (retryCountRef h)
    (isMountedRef h) (token h) (sockets h) (timers h) (next_handle h) (console h).
Definition set_retryCountRef (n : nat) (h : hook) : hook :=
  mkHook (data h) (status h) (wsRef h) (reconnectTimeoutRef h) n
    (isMountedRef h) (token h) (sockets h) (timers h) (next_handle h) (console h).
Definition set_isMountedRef (b : bool) (h : hook) : hook :=
  mkHook (data h) (status h) (wsRef h) (reconnectTimeoutRef h) (retryCountRef h)
    b (token h) (sockets h) (timers h) (next_handle h) (console h).
Definition set_token (t : option string) (h : hook) : hook :=
  mkHook (data h) (status h) (wsRef h) (reconnectTimeoutRef h) (retryCountRef h)
    (isMountedRef h) t (sockets h) (timers h) (next_handle h) (console h).
Definition set_sockets (l : list readyState) (h : hook) : hook :=
  mkHook (data h) (status h) (wsRef h) (reconnectTimeoutRef h) (retryCountRef h)
    (isMountedRef h) (token h) l (timers h) (next_handle h) (console h).
Definition set_timers (l : list (nat * Z)) (h : hook) : hook :=
  mkHook (data h) (status h) (wsRef h) (reconnectTimeoutRef h) (retryCountRef h)
    (isMountedRef h) (token h) (sockets h) l (next_handle h) (console h).
Definition log (line : console_line) (h : hook) : hook :=
  mkHook (data h) (status h) (wsRef h) (reconnectTimeoutRef h) (retryCountRef h)
    (isMountedRef h) (token h) (sockets h) (timers h) (next_handle h)
    (line :: console h).

(** The hook before its effect has run. *)
Definition initial (tok : option string) : hook :=
  mkHook None "disconnected" None None 0 true tok [] [] 1 [].

Definition sock (ws : nat) (h : hook) : option readyState :=
  nth_error (sockets h) ws.

Definition set_sock (ws : nat) (st : readyState) (h : hook) : hook :=
  set_sockets (set_nth ws st (sockets h)) h.

(** [ws.close()]: starts the closing handshake of a socket that is
    connecting or open; the close event is dispatched later. *)
Definition ws_close (ws : nat) (h : hook) : hook :=
  match sock ws h with
  | Some CONNECTING | Some OPEN => set_sock ws CLOSING h
  | _ => h
  end.

(** [setTimeout(connect, delay)] *)
Definition setTimeout (delay : Z) (h : hook) : nat * hook :=
  let id := next_handle h in
  (id, mkHook (data h) (status h) (wsRef h) (reconnectTimeoutRef h)
         (retryCountRef h) (isMountedRef h) (token h) (sockets h)
         (timers h ++ [(id, delay)]) (S id) (console h)).

(** [connect], up to the installation of the handlers. *)
Definition connect (h : hook) : hook :=
  if negb (isMountedRef h) then h
  else if no_token (token h) then set_status "disconnected" h
  else
    let h1 := set_status "connecting" h in
    let ws := length (sockets h1) in
    let h2 := set_sockets (sockets h1 ++ [CONNECTING]) h1 in
    set_wsRef (Some ws) h2.

Definition onopen (h : hook) : hook :=
  if negb (isMountedRef h) then h
  else set_retryCountRef 0 (set_status "connected" h).

Definition onmessage (payload : string) (h : hook) : hook :=
  if negb (isMountedRef h) then h
  else
    match JSON_parse payload with
    | Some parsed => set_data (Some parsed) h
    | None => log (Warn_parse payload) h
    end.

Definition onclose (h : hook) : hook :=
  if negb (isMountedRef h) then h
  else
    let h1 := set_wsRef None (set_status "disconnected" h) in
    let delay := backoff_delay (retryCountRef h1) in
    let h2 := set_retryCountRef (retryCountRef h1 + 1) h1 in
    let h3 := log (Log_reconnect delay) h2 in
    let (id, h4) := setTimeout delay h3 in
    set_reconnectTimeoutRef (Some id) h4.

Definition onerror (ws : nat) (h : hook) : hook :=
  ws_close ws (log (Warn_error ws) h).

(** The body shared by the effect cleanup and by [disconnect]. *)
Definition teardown (h : hook) : hook :=
  let h1 := set_isMountedRef false h in
  let h2 := set_timers (clearTimeout (reconnectTimeoutRef h1) (timers h1)) h1 in
  match wsRef h2 with
  | Some ws => set_wsRef None (ws_close ws h2)
  | None => h2
  end.

Definition cleanup (h : hook) : hook := teardown h.

Definition disconnect (h : hook) : hook :=
  set_status "disconnected" (teardown h).

(** The effect body: [isMountedRef.current = true; connect()]. *)
Definition effect (h : hook) : hook :=
  connect (set_isMountedRef true h).

(** One event.  A socket dispatches [open] only while connecting,
    [message] only while open, [error] and [close] only until it is closed,
    and [close] once; a timer elapses only while pending.  An event that
    cannot occur in the current state leaves it unchanged. *)
Definition step (h : hook) (e : event) : hook :=
  match e with
  | Mount => effect h
  | Unmount => cleanup h
  | CallReconnect => connect h
  | CallDisconnect => disconnect h
  | SetToken tok => set_token tok h
  | WsOpen ws =>
      match sock ws h with
      | Some CONNECTING => onopen (set_sock ws OPEN h)
      | _ => h
      end
  | WsMessage ws payload =>
      match sock ws h with
      | Some OPEN => onmessage payload h
      | _ => h
      end
  | WsError ws =>
      match sock ws h with
      | Some CLOSED | None => h
      | Some _ => onerror ws h
      end
  | WsClose ws =>
      match sock ws h with
      | Some CLOSED | None => h
      | Some _ => onclose (set_sock ws CLOSED h)
      end
  | Timeout id =>
      if is_pending id (timers h)
      then connect (set_timers (clearTimeout (Some id) (timers h)) h)
      else h
  end.

Fixpoint run (h : hook) (tr : list event) : hook :=
  match tr with
  | [] => h
  | e :: rest => run (step h e) rest
  end.

(** The event makes [ws.onopen] run past its mounted check. *)
Definition opens (h : hook) (e : event) : bool :=
  match e with
  | WsOpen ws =>
      isMountedRef h &&
      match sock ws h with Some CONNECTING => true | _ => false end
  | _ => false
  end.

(** The event makes [ws.onclose] run past its mounted check: a close the
    hook did not ask for by tearing down. *)
Definition closes (h : hook) (e : event) : bool :=
  match e with
  | WsClose ws =>
      isMountedRef h &&
      match sock ws h with Some CLOSED | None => false | Some _ => true end
  | _ => false
  end.

(** Number of such closes since the last such open, along a trace that
    starts in [h] with [n] of them already counted. *)
Fixpoint closes_since_open (n : nat) (h : hook) (tr : list event) : nat :=
  match tr with
  | [] => n
  | e :: rest =>
      closes_since_open
        (if opens h e then 0 else if closes h e then S n else n)%nat
        (step h e) rest
  end.

(** The delay of the timer set last among those pending. *)
Definition newest_delay (h : hook) : option Z :=
  match rev (timers h) with
  | (_, delay) :: _ => Some delay
  | [] => None
  end.

(** The delays of the timers set by the closes of a trace, in order. *)
Fixpoint delays_set (h : hook) (tr : list event) : list Z :=
  match tr with
  | [] => []
  | e :: rest =>
      (if closes h e
       then match newest_delay (step h e) with
            | Some delay => [delay]
            | None => []
            end
       else [])
      ++ delays_set (step h e) rest
  end.

(** *** Invariants of the hook *)

(** The status is one of the three documented values, and 'connected'
    comes with a retry counter of 0. *)
Definition status_ok (h : hook) : Prop :=
  (status h = "connected"%string -> retryCountRef h = 0%nat) /\
  (status h = "connecting"%string \/ status h = "connected"%string \/
   status h = "disconnected"%string).

(** Every socket the hook created has been closed. *)
Definition all_closed (h : hook) : Prop :=
  forall ws st, sock ws h = Some st -> st = CLOSED.

(** Nothing is in flight: no timer pending, no socket alive. *)
Definition quiescent (h : hook) : Prop :=
  timers h = [] /\ all_closed h.

(** While mounted, the only socket that is not closed is the one in
    [wsRef], and a timer is pending only when no socket is alive, in which
    case it is the one in [reconnectTimeoutRef]; once torn down, no timer
    is pending. *)
Definition tidy (h : hook) : Prop :=
  if isMountedRef h then
    (forall ws st, sock ws h = Some st -> st <> CLOSED -> wsRef h = Some ws) /\
    (timers h = [] \/
     (exists id delay,
        timers h = [(id, delay)] /\ reconnectTimeoutRef h = Some id) /\
     all_closed h)
  else timers h = [].

End Hook.

(** The events by which something other than the hook's own timer calls
    [connect]: the mount effect and the returned [reconnect]. *)
Definition invokes_connect (e : event) : bool :=
  match e with
  | Mount | CallReconnect => true
  | _ => false
  end.

(** The two ways of tearing the hook down. *)
Definition tears_down (e : event) : bool :=
  match e with
  | Unmount | CallDisconnect => true
  | _ => false
  end.

Arguments data {Frame} _.
Arguments status {Frame} _.
Arguments wsRef {Frame} _.
Arguments reconnectTimeoutRef {Frame} _.
Arguments retryCountRef {Frame} _.
Arguments isMountedRef {Frame} _.
Arguments token {Frame} _.
Arguments sockets {Frame} _.
Arguments timers {Frame} _.
Arguments next_handle {Frame} _.
Arguments console {Frame} _.
Arguments initial {Frame} _.
Arguments sock {Frame} _ _.
Arguments connect {Frame} _.
Arguments onopen {Frame} _.
Arguments onclose {Frame} _.
Arguments onerror {Frame} _ _.
Arguments teardown {Frame} _.
Arguments cleanup {Frame} _.
Arguments disconnect {Frame} _.
Arguments effect {Frame} _.
Arguments opens {Frame} _ _.
Arguments closes {Frame} _ _.
Arguments onmessage {Frame} _ _ _.
Arguments step {Frame} _ _ _.
Arguments run {Frame} _ _ _.
Arguments closes_since_open {Frame} _ _ _ _.
Arguments newest_delay {Frame} _.
Arguments delays_set {Frame} _ _ _.
Arguments status_ok {Frame} _.
Arguments all_closed {Frame} _.
Arguments quiescent {Frame} _.
Arguments tidy {Frame} _.

End UseWebSocket.

(* ------------------------------------------------------------------------- *)
(** ** Sample inputs used by the examples                                     *)
(* ------------------------------------------------------------------------- *)

Module Samples.

(** A stand-in for [JSON.parse] in the examples: it accepts the two boolean
    literals and rejects every other text.  The examples only feed it
    texts on which [JSON.parse] gives the same verdict. *)
Definition parse_literal (s : string) : option bool :=
  if String.eqb s "true" then Some true
  else if String.eqb s "false" then Some false
  else None.

(** The failure loop of a server that is down: the socket of every attempt
    closes before it opens, and the timer of every close elapses.  Sockets
    are numbered from 0 and timer handles from 1. *)
Fixpoint failure_loop (first_ws first_handle rounds : nat)
    : list UseWebSocket.event :=
  match rounds with
  | O => []
  | S k =>
      UseWebSocket.WsClose first_ws :: UseWebSocket.Timeout first_handle
        :: failure_loop (S first_ws) (S first_handle) k
  end.

(** A detail-page metrics entry reduced to its id and CPU reading. *)
Definition entry (id cpu : Z) : Z * Z := (id, cpu).

End Samples.

(* ------------------------------------------------------------------------- *)
(** ** Text shown by the cards and the detail page                            *)
(* ------------------------------------------------------------------------- *)

Module Render.

(** An integer Number inside a template literal: its decimal digits, with
    a minus sign when negative (and "0" for both zeros). *)
Definition show_int (z : Z) : string :=
  NilZero.string_of_int (Z.to_int z).

End Render.

Module ServerCardView.

Import Render.
Local Open Scope string_scope.

(** [formatUptime] of ServerCard.jsx, on an integer number of seconds.
    [Math.floor(a / b)] is floor division and [%] the remainder that takes
    the sign of the dividend.  Null, undefined and NaN are falsy like 0.
    The arithmetic is that of the code for integers of magnitude below
    2^53: those a number holds exactly, and for which the rounded quotient
    by 86400 has the floor of the exact one and prints as plain digits;
    larger arguments are outside what this function renders. *)
Definition formatUptime (seconds : Z) : string :=
  if (seconds =? 0)%Z then "—"
  else
    let d := (seconds / 86400)%Z in
    let h := (Z.rem seconds 86400 / 3600)%Z in
    let m := (Z.rem seconds 3600 / 60)%Z in
    if (0 <? d)%Z then show_int d ++ "d " ++ show_int h ++ "h"
    else if (0 <? h)%Z then show_int h ++ "h " ++ show_int m ++ "m"
    else show_int m ++ "m".

End ServerCardView.

Module ServerDetailView.

Import Render.

(** [formatUptime] of ServerDetailPage.jsx: the same split, with seconds,
    and with the same range of arguments (integers of magnitude below
    2^53). *)
Definition formatUptime (seconds : Z) : string :=
  (if (seconds =? 0)%Z then "—"
   else
     let d := (seconds / 86400)%Z in
     let h := (Z.rem seconds 86400 / 3600)%Z in
     let m := (Z.rem seconds 3600 / 60)%Z in
     let s := Z.rem seconds 60 in
     if (0 <? d)%Z then
       show_int d ++ "d " ++ show_int h ++ "h " ++ show_int m ++ "m"
     else if (0 <? h)%Z then
       show_int h ++ "h " ++ show_int m ++ "m " ++ show_int s ++ "s"
     else show_int m ++ "m " ++ show_int s ++ "s")%string.

Import QArith Qround Qminmax Qabs.

(** [const units = ['B', 'KB', 'MB', 'GB', 'TB']] *)
Definition units : list string := ["B"; "KB"; "MB"; "GB"; "TB"]%string.

(** [while (val >= 1024 && i < units.length - 1) { val /= 1024; i++ }].
    A byte counter is an integer below 2^53 and 1024 is a power of two, so
    every division is exact on doubles and rationals compute the same
    values.  Each turn increments [i], so [units.length - 1] turns of fuel
    let the loop reach its exit. *)
Fixpoint scale_loop (fuel : nat) (val : Q) (i : nat) : Q * nat :=
  match fuel with
  | O => (val, i)
  | S fuel' =>
      if Qle_bool (inject_Z 1024) val && (i <? length units - 1)%nat
      then scale_loop fuel' (val / inject_Z 1024) (S i)
      else (val, i)
  end.

(** The integer [n] that [x.toFixed(1)] prints the digits of, for [x >= 0]:
    the one for which [n / 10 - x] is closest to zero, the larger one of
    two. *)
Definition tenths (x : Q) : Z :=
  Qfloor (x * inject_Z 10 + (1 # 2)).

(** [x.toFixed(1)] for [x] of magnitude below 10^21: a minus sign for a
    negative [x], then the digits of [n] with a point before the last
    one.  (From 10^21 on [toFixed] returns the exponent notation of
    [String(x)], which is not rendered here.) *)
Definition toFixed1 (x : Q) : string :=
  let n := tenths (Qabs x) in
  ((if Qle_bool 0 x then "" else "-")
   ++ show_int (n / 10) ++ "." ++ show_int (n mod 10))%string.

(** [formatBytes] on an integer byte count of magnitude below 2^53, which
    keeps [val] exact and below the 10^21 of [toFixed1]. *)
Definition formatBytes (bytes : Z) : string :=
  if (bytes =? 0)%Z then "0 B"%string
  else
    let (val, i) := scale_loop (length units - 1) (inject_Z bytes) 0 in
    (toFixed1 val ++ " " ++ nth i units "undefined")%string.

Section Trace.

Variables Metrics Point NetSample Instant : Type.
Variable server_id : Metrics -> Z.
Variable make_point : Instant -> option NetSample -> Metrics -> Point.
Variable net_sample : Instant -> Metrics -> NetSample.

(** Every chart point the page builds along a sequence of frames, oldest
    first: one for each frame that carries the viewed server, each built
    from the network sample of the previous such frame. *)
Fixpoint points (id : option Z) (prev : option NetSample)
    (frames : list (Instant * ServerDetailPage.ws_payload Metrics))
    : list Point :=
  match frames with
  | [] => []
  | (now, wsData) :: rest =>
      match ServerDetailPage.viewed Metrics server_id id wsData with
      | Some m =>
          make_point now prev m :: points id (Some (net_sample now m)) rest
      | None => points id prev rest
      end
  end.

End Trace.

End ServerDetailView.

(* ------------------------------------------------------------------------- *)
(** ** Circular gauge (CircularGauge.jsx)                                     *)
(* ------------------------------------------------------------------------- *)

Module CircularGauge.

Import Render.
Import QArith Qround Qminmax.

Definition Qltb (x y : Q) : bool := negb (Qle_bool y x).

(** [Math.min(Math.max(value, 0), 100)].  A finite double is a rational,
    and comparisons, minimum and maximum of doubles are exact. *)
Definition progress (value : Q) : Q :=
  Qmin (Qmax value 0) (inject_Z 100).

(** [getColor] *)
Definition getColor (val : Q) : string :=
  if Qltb val (inject_Z 60) then "#00ff88"%string
  else if Qltb val (inject_Z 85) then "#ffd700"%string
  else "#ff4444"%string.

(** [Math.round]: the nearest integer, the larger one of two. *)
Definition Math_round (x : Q) : Z := Qfloor (x + (1 # 2)).

(** The colour of the arc and the text in the centre. *)
Definition colour (value : Q) : string := getColor (progress value).

Definition centre_text (value : Q) : string :=
  (show_int (Math_round (progress value)) ++ "%")%string.

End CircularGauge.

(* ------------------------------------------------------------------------- *)
(** ** Dashboard header and card props (DashboardPage.jsx)                    *)
(* ------------------------------------------------------------------------- *)

Module DashboardPage.

(** One row of the server list fetched from [/servers]. *)
Record server : Type := mkServer {
  id : Z;
  is_online : option bool
}.

(** [value ? ... : ...] on a value that is a boolean, null or undefined. *)
Definition truthy (v : option bool) : bool :=
  match v with
  | Some b => b
  | None => false
  end.

(** The label next to the Wi-Fi icon of the header. *)
Definition ws_label (wsStatus : string) : string :=
  if String.eqb wsStatus "connected" then "Live"%string
  else if String.eqb wsStatus "connecting" then "Connecting"%string
  else "Offline"%string.

Section Dashboard.

(** One entry of [wsData.servers], with its [server_id] and [is_online]. *)
Variable Metrics : Type.
Variable server_id : Metrics -> Z.
Variable metrics_is_online : Metrics -> option bool.

(** [metricsMap[k] = m] on a plain object used as a map. *)
Definition assign (k : Z) (m : Metrics) (map : list (Z * Metrics))
    : list (Z * Metrics) :=
  (k, m) :: filter (fun e => negb (fst e =? k)) map.

(** [metricsMap[k]] *)
Definition lookup (k : Z) (map : list (Z * Metrics)) : option Metrics :=
  match find (fun e => fst e =? k) map with
  | Some e => Some (snd e)
  | None => None
  end.

(** [const metricsMap = {}; if (wsData?.servers) for (const m of
    wsData.servers) metricsMap[m.server_id] = m] *)
Definition metricsMap (wsData : option (option (list Metrics)))
    : list (Z * Metrics) :=
  match wsData with
  | Some (Some servers) =>
      fold_left (fun map m => assign (server_id m) m map) servers []
  | _ => []
  end.

(** [metricsMap[s.id]?.is_online] *)
Definition live_flag (map : list (Z * Metrics)) (s : server) : option bool :=
  match lookup (id s) map with
  | Some m => metrics_is_online m
  | None => None
  end.

(** [servers.filter((s) => metricsMap[s.id]?.is_online ?? s.is_online).length] *)
Definition onlineCount (map : list (Z * Metrics)) (servers : list server)
    : nat :=
  length
    (filter (fun s => truthy (match live_flag map s with
                              | Some b => Some b
                              | None => is_online s
                              end))
            servers).

(** The props of [<ServerCard server={server} metrics={metricsMap[server.id]} />],
    as far as the card's debounce reads them. *)
Definition card_props (map : list (Z * Metrics)) (s : server)
    : ServerCard.props :=
  ServerCard.mkProps (live_flag map s) (is_online s).

End Dashboard.

End DashboardPage.

(* ------------------------------------------------------------------------- *)
(** ** Sidebar status dot (Layout.jsx)                                        *)
(* ------------------------------------------------------------------------- *)

Module Layout.

(** Own properties of an object literal with string values. *)
Fixpoint property (obj : list (string * string)) (key : string)
    : option string :=
  match obj with
  | [] => None
  | (k, v) :: rest => if String.eqb k key then Some v else property rest key
  end.

Definition colors : list (string * string) :=
  [("connected", "bg-accent-green");
   ("connecting", "bg-accent-yellow animate-pulse");
   ("disconnected", "bg-accent-red")]%string.

Definition labels : list (string * string) :=
  [("connected", "Live"); ("connecting", "Connecting...");
   ("disconnected", "Offline")]%string.

(** [WSStatusDot]: the class of the dot and the text beside it; [None] is
    the undefined a missing key yields. *)
Definition WSStatusDot (status : string) : option string * option string :=
  (property colors status, property labels status).

End Layout.

(* ------------------------------------------------------------------------- *)
(** ** Stored credentials (api.js, AuthContext.jsx)                           *)
(* ------------------------------------------------------------------------- *)

Module Api.

Local Open Scope string_scope.

Definition TOKEN_KEY : string := "serverpilot_token".
Definition USER_KEY : string := "serverpilot_user".

(** [localStorage], and likewise the headers object of a request: string
    keys, string values, one value per key. *)
Definition table : Type := list (string * string).

Definition getItem (k : string) (t : table) : option string :=
  match find (fun e => String.eqb (fst e) k) t with
  | Some e => Some (snd e)
  | None => None
  end.

Definition removeItem (k : string) (t : table) : table :=
  filter (fun e => negb (String.eqb (fst e) k)) t.

Definition setItem (k v : string) (t : table) : table :=
  (k, v) :: removeItem k t.

(** The part of the browser the interceptors touch.  [navigated] records
    an assignment to [window.location.href]. *)
Record browser : Type := mkBrowser {
  localStorage : table;
  pathname : string;
  navigated : option string
}.

(** A string read from storage is truthy unless null or empty. *)
Definition truthy (v : option string) : bool :=
  match v with
  | None => false
  | Some EmptyString => false
  | Some _ => true
  end.

(** The request interceptor: returns [config], with its [headers] updated
    when a token is stored. *)
Definition request_interceptor (b : browser) (headers : table) : table :=
  match getItem TOKEN_KEY (localStorage b) with
  | Some token =>
      if truthy (Some token)
      then setItem "Authorization" ("Bearer " ++ token) headers
      else headers
  | None => headers
  end.

(** An error passed to the response interceptor: [error.response?.status]. *)
Record error : Type := mkError {
  response_status : option Z;
  detail : string
}.

(** The error handler of the response interceptor.  It returns
    [Promise.reject(error)]: the second component is the rejection. *)
Definition response_error (err : error) (b : browser) : browser * error :=
  if match response_status err with
     | Some status => (status =? 401)%Z
     | None => false
     end
  then
    let st := removeItem USER_KEY (removeItem TOKEN_KEY (localStorage b)) in
    if negb (String.eqb (pathname b) "/login")
    then (mkBrowser st (pathname b) (Some "/login"), err)
    else (mkBrowser st (pathname b) (navigated b), err)
  else (b, err).

(** What an [api] request settles with, as its caller sees it: a response,
    which the response interceptor hands on as it is, or an error, which
    has been through [response_error]. *)
Inductive settled (A : Type) : Type :=
| Fulfilled (response : A)
| Rejected (err : error).

Arguments Fulfilled {A} response.
Arguments Rejected {A} err.

End Api.

Module AuthContext.

Import Api.

(** [{ username, user_id }] *)
Record userData : Type := mkUser {
  username : string;
  user_id : Z
}.

(** [resp.data] of a successful [POST /auth/login]. *)
Record login_response : Type := mkLogin {
  access_token : string;
  resp_username : string;
  resp_user_id : Z
}.

(** The state cells of [AuthProvider]. *)
Record auth : Type := mkAuth {
  token : option string;
  user : option userData
}.

Section Provider.

(** [JSON.stringify] and [JSON.parse] on the stored user. *)
Variable stringify : userData -> string.
Variable parse : string -> option userData.

(** The lazy initial states: the stored token, and the stored user parsed
    when there is one.  ([JSON.parse] throwing is [None] here.) *)
Definition initial (b : browser) : auth :=
  mkAuth (getItem TOKEN_KEY (localStorage b))
         (match getItem USER_KEY (localStorage b) with
          | Some stored => if truthy (Some stored) then parse stored else None
          | None => None
          end).

(** [login], by what [await api.post('/auth/login', ...)] settles with.
    When it rejects, the error has been through the response interceptor
    (which on a 401 has cleared the stored credentials), [login] itself
    does nothing more and rejects with the same error.  When it resolves,
    token and user are stored, the two state cells are set and the user is
    returned. *)
Definition login (result : settled login_response) (b : browser) (a : auth)
    : browser * auth * (userData + error) :=
  match result with
  | Rejected err =>
      (fst (response_error err b), a, inr (snd (response_error err b)))
  | Fulfilled r =>
      let u := mkUser (resp_username r) (resp_user_id r) in
      let st := setItem USER_KEY (stringify u)
                  (setItem TOKEN_KEY (access_token r) (localStorage b)) in
      (mkBrowser st (pathname b) (navigated b),
       mkAuth (Some (access_token r)) (Some u), inl u)
  end.

Definition logout (b : browser) (a : auth) : browser * auth :=
  (mkBrowser (removeItem USER_KEY (removeItem TOKEN_KEY (localStorage b)))
             (pathname b) (navigated b),
   mkAuth None None).

End Provider.

(** What [connect] of the subscription hook reads from storage. *)
Definition stored_token (b : browser) : option string :=
  getItem TOKEN_KEY (localStorage b).

End AuthContext.

(* ------------------------------------------------------------------------- *)
(** ** Paging of the audit log (AuditLogPage.jsx)                             *)
(* ------------------------------------------------------------------------- *)

Module AuditLogPage.

Definition PER_PAGE : Z := 50.

Record pager : Type := mkPager {
  page : Z;          (* useState(1) *)
  totalPages : Z;    (* useState(1) *)
  total : Z          (* useState(0) *)
}.

Definition initial : pager := mkPager 1 1 0.

(** The pagination bar is rendered when [totalPages > 1]; its buttons are
    disabled at the ends. *)
Definition bar_shown (p : pager) : bool := 1 <? totalPages p.
Definition prev_disabled (p : pager) : bool := page p <=? 1.
Definition next_disabled (p : pager) : bool := totalPages p <=? page p.

(** [setPage((p) => Math.max(1, p - 1))] behind the left button. *)
Definition click_prev (p : pager) : pager :=
  if bar_shown p && negb (prev_disabled p)
  then mkPager (Z.max 1 (page p - 1)) (totalPages p) (total p)
  else p.

(** [setPage((p) => Math.min(totalPages, p + 1))] behind the right one. *)
Definition click_next (p : pager) : pager :=
  if bar_shown p && negb (next_disabled p)
  then mkPager (Z.min (totalPages p) (page p + 1)) (totalPages p) (total p)
  else p.

(** A response of [fetchLogs] arrives: [resp.data.pages], [resp.data.total]. *)
Definition loaded (pages records : Z) (p : pager) : pager :=
  mkPager (page p) pages records.

Inductive action : Type :=
| Prev
| Next
| Loaded (pages records : Z)
| Failed.

Definition act (p : pager) (a : action) : pager :=
  match a with
  | Prev => click_prev p
  | Next => click_next p
  | Loaded pages records => loaded pages records p
  | Failed => p
  end.

Definition acts (p : pager) (l : list action) : pager := fold_left act l p.

End AuditLogPage.

(* ========================================================================= *)
(** * Properties                                                              *)
(* ========================================================================= *)

(* ------------------------------------------------------------------------- *)
(** ** The rolling history                                                    *)
(* ------------------------------------------------------------------------- *)

Section HistoryFacts.

Import ServerDetailPage.

Lemma slice_last_length (A : Type) (n : nat) (arr : list A) :
  length (slice_last n arr) = Nat.min n (length arr).
Proof. unfold slice_last. rewrite length_skipn. lia. Qed.

Lemma push_point_length (A : Type) (prev : list A) (point : A) :
  (length (push_point prev point) <= MAX_HISTORY)%nat.
Proof. unfold push_point. rewrite slice_last_length. lia. Qed.

Lemma push_point_room (A : Type) (prev : list A) (point : A) :
  (length prev < MAX_HISTORY)%nat -> push_point prev point = prev ++ [point].
Proof.
  intros Hlen. unfold push_point, slice_last.
  rewrite length_app. simpl length.
  replace (length prev + 1 - MAX_HISTORY)%nat with 0%nat by lia.
  reflexivity.
Qed.

Lemma push_point_full (A : Type) (prev : list A) (point : A) :
  length prev = MAX_HISTORY -> push_point prev point = tl prev ++ [point].
Proof.
  intros Hlen. unfold push_point, slice_last.
  rewrite length_app. simpl length.
  replace (length prev + 1 - MAX_HISTORY)%nat with 1%nat by lia.
  destruct prev as [|oldest rest]; [discriminate Hlen | reflexivity].
Qed.

Variables Metrics Point NetSample Instant : Type.
Variable server_id : Metrics -> Z.
Variable make_point : Instant -> option NetSample -> Metrics -> Point.
Variable net_sample : Instant -> Metrics -> NetSample.

Let update := on_ws_data Metrics Point NetSample Instant server_id make_point net_sample.
Let replay := run Metrics Point NetSample Instant server_id make_point net_sample.

Lemma on_ws_data_bounded id now wsData (p : page Metrics Point NetSample) :
  (length (history p) <= MAX_HISTORY)%nat ->
  (length (history (update id now wsData p)) <= MAX_HISTORY)%nat.
Proof.
  intros Hp. unfold update, on_ws_data.
  destruct (viewed _ _ id wsData); simpl; [apply push_point_length | exact Hp].
Qed.

Lemma run_bounded id frames : forall p : page Metrics Point NetSample,
  (length (history p) <= MAX_HISTORY)%nat ->
  (length (history (replay id p frames)) <= MAX_HISTORY)%nat.
Proof.
  induction frames as [|[now wsData] rest IH]; intros p Hp; simpl.
  - exact Hp.
  - apply IH. apply on_ws_data_bounded. exact Hp.
Qed.

(** C6.  Along any sequence of broadcast frames, starting from the empty
    history, the buffer never holds more than [MAX_HISTORY] = 60 points.
    A frame that carries the viewed server appends exactly one point at the
    end: while there is room the old points all stay, and once 60 points
    are held the oldest one alone is dropped, the others keeping their
    order.  A frame without the viewed server leaves the buffer alone. *)
Theorem history_rolling_window :
  forall id frames now wsData,
    let p := replay id initial_page frames in
    let p' := update id now wsData p in
    MAX_HISTORY = 60%nat /\
    (length (history p') <= MAX_HISTORY)%nat /\
    (forall m, viewed Metrics server_id id wsData = Some m ->
       history p' =
         (if (length (history p) <? MAX_HISTORY)%nat
          then history p else tl (history p))
         ++ [make_point now (prevNetRef p) m]) /\
    (viewed Metrics server_id id wsData = None -> history p' = history p).
Proof.
  intros id frames now wsData p p'.
  assert (Hp : (length (history p) <= MAX_HISTORY)%nat).
  { apply run_bounded. simpl. lia. }
  split; [reflexivity|]. split; [|split].
  - apply on_ws_data_bounded. exact Hp.
  - intros m Hm. subst p'. unfold update, on_ws_data. rewrite Hm. simpl.
    destruct (length (history p) <? MAX_HISTORY)%nat eqn:Hroom.
    + apply push_point_room. apply Nat.ltb_lt. exact Hroom.
    + apply push_point_full. apply Nat.ltb_ge in Hroom. lia.
  - intros Hnone. subst p'. unfold update, on_ws_data. rewrite Hnone.
    reflexivity.
Qed.

End HistoryFacts.

(** The 61st frame for server 7 pushes out the first point. *)
Lemma history_rolling_window_witness :
  let frames := map (fun k => (k, Some (Some [Samples.entry 7 k])))
                    (map Z.of_nat (seq 0 60)) in
  let p := ServerDetailPage.run (Z * Z) Z unit Z fst (fun _ _ m => snd m)
             (fun _ _ => tt) (Some 7) ServerDetailPage.initial_page frames in
  ServerDetailPage.viewed (Z * Z) fst (Some 7)
    (Some (Some [Samples.entry 3 1; Samples.entry 7 99])) = Some (7, 99) /\
  ServerDetailPage.history
    (ServerDetailPage.on_ws_data (Z * Z) Z unit Z fst (fun _ _ m => snd m)
       (fun _ _ => tt) (Some 7) 60
       (Some (Some [Samples.entry 3 1; Samples.entry 7 99])) p)
  = map Z.of_nat (seq 1 59) ++ [99].
Proof.
  intros frames p. split; [reflexivity|].
  destruct (history_rolling_window (Z * Z) Z unit Z fst (fun _ _ m => snd m)
              (fun _ _ => tt) (Some 7) frames 60
              (Some (Some [Samples.entry 3 1; Samples.entry 7 99])))
    as (_ & _ & Happend & _).
  subst p. rewrite (Happend (7, 99) eq_refl). reflexivity.
Defined.

(* ------------------------------------------------------------------------- *)
(** ** The server-side hysteresis                                             *)
(* ------------------------------------------------------------------------- *)

Section PollerFacts.

Import Poller.

Lemma polls_snoc s os o : polls s (os ++ [o]) = poll (polls s os) o.
Proof. unfold polls. rewrite fold_left_app. reflexivity. Qed.

Lemma trailing_failures_snoc os o :
  trailing_failures (os ++ [o]) =
  if is_failure o then S (trailing_failures os) else 0%nat.
Proof. unfold trailing_failures. rewrite rev_app_distr. reflexivity. Qed.

(** The counter is the number of failures since the last success. *)
Lemma failures_counted online os :
  consecutive_failures (polls (registered online) os) = trailing_failures os.
Proof.
  induction os as [|o os IH] using rev_ind; [reflexivity|].
  rewrite polls_snoc, trailing_failures_snoc.
  destruct o as [now body|err]; simpl; [reflexivity | now rewrite IH].
Qed.

(** An agent shown online has failed fewer than three polls in a row. *)
Lemma online_below_threshold online os :
  is_online (polls (registered online) os) = true ->
  (consecutive_failures (polls (registered online) os) < OFFLINE_THRESHOLD)%nat.
Proof.
  induction os as [|o os IH] using rev_ind.
  - intros _. simpl. unfold OFFLINE_THRESHOLD. lia.
  - rewrite polls_snoc.
    destruct o as [now body|err]; unfold poll;
      cbn [is_online consecutive_failures].
    + intros _. unfold OFFLINE_THRESHOLD. lia.
    + destruct (OFFLINE_THRESHOLD <=? S _)%nat eqn:Hth; [discriminate|].
      intros _. apply Nat.leb_gt in Hth. exact Hth.
Qed.

(** C4.  Over the poller of specification section 4.2, for an agent
    followed from its registration through any poll history: a poll turns
    [is_online] from true to false only if it is a failure that brings
    [consecutive_failures] to [OFFLINE_THRESHOLD] = 3, the last three polls
    being failures; a failure that leaves the counter below 3 keeps the
    previous [is_online]; and a successful poll always yields
    [is_online = true] with [consecutive_failures = 0], whatever the count
    was. *)
Theorem liveness_hysteresis :
  forall online os o,
    let s := polls (registered online) os in
    let s' := poll s o in
    OFFLINE_THRESHOLD = 3%nat /\
    (is_online s = true -> is_online s' = false ->
       is_failure o = true /\
       consecutive_failures s' = OFFLINE_THRESHOLD /\
       trailing_failures (os ++ [o]) = OFFLINE_THRESHOLD) /\
    (is_failure o = true ->
       (consecutive_failures s' < OFFLINE_THRESHOLD)%nat ->
       is_online s' = is_online s) /\
    (is_failure o = false ->
       is_online s' = true /\ consecutive_failures s' = 0%nat).
Proof.
  intros online os o s s'. split; [reflexivity|]. split; [|split].
  - intros Hon Hoff.
    pose proof (online_below_threshold online os Hon) as Hlt. fold s in Hlt.
    assert (Hcount : consecutive_failures s' = trailing_failures (os ++ [o])).
    { subst s' s. rewrite <- polls_snoc. apply failures_counted. }
    destruct o as [now body|err]; subst s'; unfold poll in *;
      cbn [is_online consecutive_failures is_failure] in *; [discriminate|].
    destruct (OFFLINE_THRESHOLD <=? S (consecutive_failures s))%nat eqn:Hth.
    + apply Nat.leb_le in Hth.
      assert (S (consecutive_failures s) = OFFLINE_THRESHOLD) by lia.
      repeat split; congruence.
    + congruence.
  - intros Hfail Hlow. destruct o as [now body|err]; [discriminate|].
    subst s'. unfold poll in *. cbn [is_online consecutive_failures] in *.
    destruct (OFFLINE_THRESHOLD <=? S (consecutive_failures s))%nat eqn:Hth.
    + apply Nat.leb_le in Hth. lia.
    + reflexivity.
  - intros Hok. destruct o as [now body|err]; [|discriminate].
    split; reflexivity.
Qed.

End PollerFacts.

(** Two failures leave the agent online, the third takes it offline, and
    one success brings it back. *)
Lemma liveness_hysteresis_witness :
  let os := [Poller.Success 0 "m0"; Poller.Failure "timeout";
             Poller.Failure "timeout"]%string in
  Poller.is_online (Poller.polls (Poller.registered false) os) = true /\
  Poller.is_online
    (Poller.poll (Poller.polls (Poller.registered false) os)
       (Poller.Failure "refused")) = false /\
  Poller.trailing_failures (os ++ [Poller.Failure "refused"%string]) = 3%nat /\
  Poller.is_online
    (Poller.poll
       (Poller.polls (Poller.registered false)
          (os ++ [Poller.Failure "refused"%string]))
       (Poller.Success 20 "m1")) = true.
Proof.
  intros os.
  destruct (liveness_hysteresis false os (Poller.Failure "refused"))
    as (_ & Hflip & _ & _).
  destruct (Hflip eq_refl eq_refl) as (_ & _ & Hthree).
  destruct (liveness_hysteresis false (os ++ [Poller.Failure "refused"%string])
              (Poller.Success 20 "m1")) as (_ & _ & _ & Hback).
  destruct (Hback eq_refl) as (Honline & _).
  split; [reflexivity|]. split; [reflexivity|].
  split; [exact Hthree | exact Honline].
Defined.

(* ------------------------------------------------------------------------- *)
(** ** The debounced card                                                     *)
(* ------------------------------------------------------------------------- *)

Section CardFacts.

Import ServerCard.

(** Reduce field accesses and setters, and nothing else. *)
Ltac card_fields :=
  cbn [isOnline offlineTimerRef lastRaw now pending next_handle
       set_isOnline set_offlineTimerRef set_lastRaw set_now set_pending
       setTimeout timer_callback fst snd app] in *.

Lemma clearTimeout_single h due : clearTimeout h [(h, due)] = [].
Proof. unfold clearTimeout. simpl. rewrite Nat.eqb_refl. reflexivity. Qed.

Lemma advance_idle t c :
  pending c = [] -> advance t c = set_now (Z.max (now c) t) c.
Proof. intros Hp. unfold advance. rewrite Hp. reflexivity. Qed.

Lemma advance_not_due t c h due :
  pending c = [(h, due)] -> t < due ->
  advance t c = set_now (Z.max (now c) t) c.
Proof.
  intros Hp Hlt. unfold advance. rewrite Hp. simpl.
  unfold fire_next. rewrite Hp. simpl.
  destruct (Z.leb_spec due t); [lia | reflexivity].
Qed.

Lemma advance_due t c h due :
  pending c = [(h, due)] -> due <= t ->
  advance t c =
  mkCard false None (lastRaw c) (Z.max (Z.max (now c) due) t) []
         (next_handle c).
Proof.
  intros Hp Hle. unfold advance. rewrite Hp. simpl.
  unfold fire_next. rewrite Hp. simpl.
  destruct (Z.leb_spec due t); [|lia].
  rewrite Nat.eqb_refl. reflexivity.
Qed.

Lemma advance_wf t c : card_wf c -> card_wf (advance t c).
Proof.
  intros [Hsingle Hraw]. unfold single_timer in Hsingle.
  destruct (offlineTimerRef c) as [h|] eqn:Href.
  - destruct Hsingle as [due Hp].
    assert (Hfalse : lastRaw c = false).
    { destruct (lastRaw c); [|reflexivity].
      destruct (Hraw eq_refl) as [_ Hnone]. discriminate Hnone. }
    destruct (Z.le_gt_cases due t) as [Hdue|Hlate].
    + rewrite (advance_due t c h due Hp Hdue).
      split; [reflexivity|]. simpl. rewrite Hfalse. discriminate.
    + rewrite (advance_not_due t c h due Hp Hlate).
      split; unfold single_timer; simpl.
      * rewrite Href. eauto.
      * rewrite Hfalse. discriminate.
  - rewrite (advance_idle t c Hsingle).
    split; unfold single_timer; simpl.
    + rewrite Href. exact Hsingle.
    + intros Ht. destruct (Hraw Ht) as [Hon _]. split; [exact Hon | exact Href].
Qed.

Lemma debounce_effect_wf raw c :
  single_timer c -> card_wf (debounce_effect raw (set_lastRaw raw c)).
Proof.
  intros Hsingle. unfold single_timer in Hsingle.
  destruct c as [on ref last t pend nh]. simpl in Hsingle.
  destruct raw, ref as [h|]; unfold debounce_effect; simpl.
  - destruct Hsingle as [due Hp]. subst pend. rewrite clearTimeout_single.
    split; [reflexivity|]. simpl. auto.
  - split; [exact Hsingle|]. simpl. auto.
  - split; [exact Hsingle|]. simpl. discriminate.
  - subst pend. split; [|simpl; discriminate].
    unfold single_timer. simpl. eauto.
Qed.

Lemma mount_wf t p : card_wf (mount t p).
Proof.
  unfold mount.
  replace (first_render t p)
    with (set_lastRaw (rawOnline p) (first_render t p)) by reflexivity.
  apply debounce_effect_wf. reflexivity.
Qed.

Lemma render_wf t p c : card_wf c -> card_wf (render t p c).
Proof.
  intros Hwf. apply (advance_wf t) in Hwf. unfold render.
  destruct (Bool.eqb (rawOnline p) (lastRaw (advance t c))); [exact Hwf|].
  apply debounce_effect_wf. apply Hwf.
Qed.

Lemma run_wf updates : forall c, card_wf c -> card_wf (run c updates).
Proof.
  induction updates as [|[t p] rest IH]; intros c Hwf; simpl.
  - exact Hwf.
  - apply IH. apply render_wf. exact Hwf.
Qed.

Lemma run_app c us vs : run c (us ++ vs) = run (run c us) vs.
Proof.
  revert c. induction us as [|[t p] rest IH]; intros c; simpl;
    [reflexivity | apply IH].
Qed.

Lemma debounce_effect_lastRaw raw c :
  lastRaw (debounce_effect raw c) = lastRaw c.
Proof.
  destruct c as [on [h|] last t pend nh], raw; reflexivity.
Qed.

(** A raw [true] always leaves the card online with no timer. *)
Lemma render_online t p c :
  card_wf c -> rawOnline p = true ->
  isOnline (render t p c) = true /\ pending (render t p c) = [] /\
  offlineTimerRef (render t p c) = None.
Proof.
  intros Hwf Hraw. pose proof (render_wf t p c Hwf) as [Hsingle Hon].
  assert (Hlast : lastRaw (render t p c) = true).
  { unfold render. rewrite Hraw.
    destruct (lastRaw (advance t c)) eqn:Hl; cbn [Bool.eqb]; [exact Hl|].
    rewrite debounce_effect_lastRaw. reflexivity. }
  destruct (Hon Hlast) as [H1 H2]. unfold single_timer in Hsingle.
  rewrite H2 in Hsingle. auto.
Qed.

Lemma advance_in_grace t1 t c :
  in_grace t1 c -> t < t1 + OFFLINE_GRACE_MS -> in_grace t1 (advance t c).
Proof.
  intros (Hwf & Hon & Hnow & Hdue) Ht.
  pose proof (advance_wf t c Hwf) as Hwf'.
  destruct Hwf as [Hsingle _]. unfold single_timer in Hsingle.
  assert (Heq : advance t c = set_now (Z.max (now c) t) c).
  { destruct (offlineTimerRef c) as [h|].
    - destruct Hsingle as [due Hp].
      apply (advance_not_due t c h due Hp). specialize (Hdue h due Hp). lia.
    - apply advance_idle. exact Hsingle. }
  rewrite Heq in *.
  split; [exact Hwf'|]. split; [exact Hon|]. split; [simpl; lia | exact Hdue].
Qed.

Lemma render_in_grace t1 t p c :
  in_grace t1 c -> t < t1 + OFFLINE_GRACE_MS -> in_grace t1 (render t p c).
Proof.
  intros Hg Ht. pose proof (render_wf t p c (proj1 Hg)) as Hwf'.
  apply (advance_in_grace t1 t c) in Hg; [|exact Ht].
  unfold render in *.
  destruct (Bool.eqb (rawOnline p) (lastRaw (advance t c))); [exact Hg|].
  destruct Hg as ([Hsingle _] & Hon & Hnow & Hdue).
  split; [exact Hwf'|]. clear Hwf'. unfold single_timer in Hsingle.
  destruct (advance t c) as [on ref last tnow pend nh]. card_fields.
  destruct (rawOnline p), ref as [h|]; unfold debounce_effect; card_fields.
  - destruct Hsingle as [due Hp]. subst pend. rewrite clearTimeout_single.
    split; [reflexivity|]. split; [exact Hnow|]. discriminate.
  - split; [reflexivity|]. split; [exact Hnow | exact Hdue].
  - split; [exact Hon|]. split; [exact Hnow | exact Hdue].
  - subst pend. split; [exact Hon|]. split; [exact Hnow|].
    intros h due Heq. injection Heq as _ Hd. lia.
Qed.

Lemma run_in_grace t1 updates : forall c,
  in_grace t1 c ->
  Forall (fun u => fst u < t1 + OFFLINE_GRACE_MS) updates ->
  in_grace t1 (run c updates).
Proof.
  induction updates as [|[t p] rest IH]; intros c Hg Hall; simpl.
  - exact Hg.
  - inversion Hall as [|u us Hu Hrest]; subst. simpl in Hu.
    apply IH; [|exact Hrest]. apply render_in_grace; assumption.
Qed.

(** The first [false] after a [true] opens the grace window. *)
Lemma render_opens_grace t1 p c :
  card_wf c -> lastRaw c = true -> now c <= t1 -> rawOnline p = false ->
  in_grace t1 (render t1 p c) /\
  lastRaw (render t1 p c) = false /\
  exists h, pending (render t1 p c) = [(h, t1 + OFFLINE_GRACE_MS)] /\
            offlineTimerRef (render t1 p c) = Some h /\
            now (render t1 p c) = t1.
Proof.
  intros Hwf Hlast Hnow Hraw.
  pose proof (render_wf t1 p c Hwf) as Hwf'.
  destruct Hwf as [Hsingle Hon]. destruct (Hon Hlast) as [Hshow Href].
  unfold single_timer in Hsingle. rewrite Href in Hsingle.
  assert (Hr : render t1 p c =
               mkCard true (Some (next_handle c)) false t1
                 [(next_handle c, t1 + OFFLINE_GRACE_MS)]
                 (S (next_handle c))).
  { unfold render. rewrite (advance_idle t1 c Hsingle). rewrite Hraw.
    destruct c as [on ref last tnow pend nh]. card_fields. subst.
    cbn [Bool.eqb]. unfold debounce_effect. card_fields.
    rewrite Z.max_r by lia. reflexivity. }
  rewrite Hr in *.
  split; [|split; [reflexivity | eexists; repeat split]].
  split; [exact Hwf'|]. split; [reflexivity|].
  split; [card_fields; unfold OFFLINE_GRACE_MS; lia|].
  intros h due Heq. card_fields. injection Heq as _ Hd. lia.
Qed.

Lemma advance_lastRaw t c : card_wf c -> lastRaw (advance t c) = lastRaw c.
Proof.
  intros [Hsingle _]. unfold single_timer in Hsingle.
  destruct (offlineTimerRef c) as [h|].
  - destruct Hsingle as [due Hp]. destruct (Z.le_gt_cases due t) as [Hd|Hd].
    + rewrite (advance_due t c h due Hp Hd). reflexivity.
    + rewrite (advance_not_due t c h due Hp Hd). reflexivity.
  - rewrite (advance_idle t c Hsingle). reflexivity.
Qed.

Lemma advance_counting_down due t c bound :
  counting_down due c -> now c <= bound -> t <= bound ->
  counting_down due (advance t c) /\ now (advance t c) <= bound /\
  t <= now (advance t c).
Proof.
  intros [Hlast [(Hon & Hnow & h & Hp & Href)|(Hoff & Hnow & Hp & Href)]] Hb Ht.
  - destruct (Z.le_gt_cases due t) as [Hd|Hd].
    + rewrite (advance_due t c h due Hp Hd). card_fields.
      split; [|lia]. split; [exact Hlast|]. right. card_fields.
      repeat split; lia.
    + rewrite (advance_not_due t c h due Hp Hd). card_fields.
      split; [|lia]. split; [exact Hlast|]. left. card_fields.
      split; [exact Hon|]. split; [lia|]. exists h. split; assumption.
  - rewrite (advance_idle t c Hp). card_fields.
    split; [|lia]. split; [exact Hlast|]. right. card_fields.
    repeat split; try assumption; lia.
Qed.

Lemma render_counting_down due t p c bound :
  counting_down due c -> rawOnline p = false -> now c <= bound -> t <= bound ->
  counting_down due (render t p c) /\ now (render t p c) <= bound.
Proof.
  intros Hc Hraw Hb Ht.
  destruct (advance_counting_down due t c bound Hc Hb Ht) as (Hc' & Hb' & _).
  unfold render. rewrite Hraw. destruct Hc' as [Hlast Hphase].
  rewrite Hlast. cbn [Bool.eqb]. split; [split; assumption | exact Hb'].
Qed.

Lemma run_counting_down due bound updates : forall c,
  counting_down due c -> now c <= bound ->
  Forall (fun u => rawOnline (snd u) = false /\ fst u <= bound) updates ->
  counting_down due (run c updates) /\ now (run c updates) <= bound.
Proof.
  induction updates as [|[t p] rest IH]; intros c Hc Hb Hall; simpl.
  - split; assumption.
  - inversion Hall as [|u us [Hraw Ht] Hrest]; subst. simpl in Hraw, Ht.
    destruct (render_counting_down due t p c bound Hc Hraw Hb Ht) as [Hc' Hb'].
    apply IH; assumption.
Qed.

Lemma shown_at_counting_down due t c :
  counting_down due c -> now c <= t ->
  shown_at t c = if t <? due then "online"%string else "offline"%string.
Proof.
  intros [Hlast [(Hon & Hnow & h & Hp & Href)|(Hoff & Hnow & Hp & Href)]] Ht;
    unfold shown_at, status_dot.
  - destruct (Z.ltb_spec t due) as [Hd|Hd].
    + rewrite (advance_not_due t c h due Hp Hd). card_fields.
      rewrite Hon. reflexivity.
    + rewrite (advance_due t c h due Hp Hd). reflexivity.
  - rewrite (advance_idle t c Hp). card_fields. rewrite Hoff.
    destruct (Z.ltb_spec t due); [lia | reflexivity].
Qed.

Lemma fire_due_stays_offline fuel t : forall c,
  isOnline c = false -> isOnline (fire_due fuel t c) = false.
Proof.
  induction fuel as [|fuel IH]; intros c Hoff; simpl; [exact Hoff|].
  unfold fire_next. destruct (earliest (pending c)) as [[h due]|]; [|exact Hoff].
  destruct (due <=? t); [|exact Hoff]. apply IH. reflexivity.
Qed.

Lemma render_stays_offline t p c :
  isOnline c = false -> rawOnline p = false -> isOnline (render t p c) = false.
Proof.
  intros Hoff Hraw.
  assert (Hadv : isOnline (advance t c) = false).
  { unfold advance. card_fields. apply fire_due_stays_offline. exact Hoff. }
  unfold render. rewrite Hraw.
  destruct (Bool.eqb false (lastRaw (advance t c))); [exact Hadv|].
  unfold debounce_effect. card_fields.
  destruct (offlineTimerRef (advance t c)); card_fields; exact Hadv.
Qed.

Lemma run_stays_offline updates : forall c,
  isOnline c = false ->
  Forall (fun u => rawOnline (snd u) = false) updates ->
  isOnline (run c updates) = false.
Proof.
  induction updates as [|[t p] rest IH]; intros c Hoff Hall; simpl.
  - exact Hoff.
  - inversion Hall as [|u us Hraw Hrest]; subst. simpl in Hraw.
    apply IH; [|exact Hrest]. apply render_stays_offline; assumption.
Qed.

(** Unmounting a card clears its one timer; time passing then changes
    nothing it shows. *)
Lemma unmount_silences_card t0 p0 updates :
  let c := unmount (run (mount t0 p0) updates) in
  pending c = [] /\
  forall t, status_dot (advance t c) = status_dot (run (mount t0 p0) updates).
Proof.
  pose proof (run_wf updates _ (mount_wf t0 p0)) as [Hsingle _].
  unfold single_timer in Hsingle. unfold unmount.
  destruct (offlineTimerRef (run (mount t0 p0) updates)) as [h|].
  - destruct Hsingle as [due Hp]. rewrite Hp, clearTimeout_single.
    split; [reflexivity|]. intros t. rewrite advance_idle; reflexivity.
  - split; [exact Hsingle|]. intros t. rewrite advance_idle; [reflexivity|].
    exact Hsingle.
Qed.

(** C2.  Take a card whose raw online flag is true, a [false] arriving at
    [t1] and a [true] arriving at [t2], strictly less than
    [OFFLINE_GRACE_MS] = 12000 ms later, with any updates in between.  At
    every instant from [t1] to [t2], whatever part of those updates has
    been seen, the card shows online, and it shows online once the [true]
    is processed.  Moreover a raw [true] arriving at any time, in any
    reachable state, leaves the card showing online with no timer pending
    and the timer ref null. *)
Theorem grace_suppresses_flicker :
  OFFLINE_GRACE_MS = 12000 /\
  (forall t0 p0 before t1 p_off between t2 p_on,
     let c := run (mount t0 p0) before in
     lastRaw c = true -> now c <= t1 ->
     rawOnline p_off = false -> rawOnline p_on = true ->
     t1 <= t2 < t1 + OFFLINE_GRACE_MS ->
     Forall (fun u => t1 <= fst u <= t2) between ->
     (forall seen rest t,
        between = seen ++ rest -> t1 <= t <= t2 ->
        shown_at t (run c ((t1, p_off) :: seen)) = "online"%string) /\
     status_dot (run c ((t1, p_off) :: between ++ [(t2, p_on)]))
       = "online"%string) /\
  (forall t0 p0 updates t p,
     rawOnline p = true ->
     let c' := render t p (run (mount t0 p0) updates) in
     status_dot c' = "online"%string /\ pending c' = [] /\
     offlineTimerRef c' = None).
Proof.
  split; [reflexivity|]. split.
  - intros t0 p0 before t1 p_off between t2 p_on c Hlast Hnow Hoff Hon Ht2 Hbetween.
    assert (Hwf : card_wf c) by (apply run_wf, mount_wf).
    destruct (render_opens_grace t1 p_off c Hwf Hlast Hnow Hoff) as (Hg & _).
    split.
    + intros seen rest t Hsplit Ht. simpl.
      assert (Hseen : Forall (fun u => fst u < t1 + OFFLINE_GRACE_MS) seen).
      { subst between. apply Forall_app in Hbetween as [Hs _].
        eapply Forall_impl; [|exact Hs]. simpl. intros u Hu. lia. }
      pose proof (run_in_grace t1 seen _ Hg Hseen) as Hg'.
      apply (advance_in_grace t1 t) in Hg'; [|lia].
      destruct Hg' as (_ & Hshow & _). unfold shown_at, status_dot.
      rewrite Hshow. reflexivity.
    + change ((t1, p_off) :: between ++ [(t2, p_on)])
        with (((t1, p_off) :: between) ++ [(t2, p_on)]).
      rewrite run_app. simpl.
      assert (Hwf' : card_wf (run (render t1 p_off c) between)).
      { apply run_wf, render_wf, Hwf. }
      destruct (render_online t2 p_on _ Hwf' Hon) as (Hshow & _).
      unfold status_dot. rewrite Hshow. reflexivity.
  - intros t0 p0 updates t p Hraw c'.
    assert (Hwf : card_wf (run (mount t0 p0) updates)) by (apply run_wf, mount_wf).
    destruct (render_online t p _ Hwf Hraw) as (Hshow & Hpend & Href).
    subst c'. unfold status_dot. rewrite Hshow. auto.
Qed.

(** C3.  Take a card whose raw online flag is true (so it shows online),
    a first [false] arriving at [t1], and afterwards only updates whose raw
    flag is false.  Seen at any instant [t] at or after the updates so
    far, the card shows online while [t < t1 + 12000] and offline from
    [t1 + 12000] on: the one change of display happens exactly
    [OFFLINE_GRACE_MS] after the first [false], however many further
    [false] updates arrive and whenever they do; until then the one pending
    timer is still the one due at [t1 + 12000]. *)
Theorem offline_once_after_grace :
  forall t0 p0 before t1 p_off later t,
    let c := run (mount t0 p0) before in
    lastRaw c = true -> now c <= t1 ->
    rawOnline p_off = false ->
    Forall (fun u => rawOnline (snd u) = false /\ t1 <= fst u <= t) later ->
    t1 <= t ->
    OFFLINE_GRACE_MS = 12000 /\
    status_dot c = "online"%string /\
    shown_at t (run c ((t1, p_off) :: later)) =
      (if t <? t1 + OFFLINE_GRACE_MS then "online"%string
       else "offline"%string) /\
    (t < t1 + OFFLINE_GRACE_MS ->
     exists h,
       pending (run c ((t1, p_off) :: later)) = [(h, t1 + OFFLINE_GRACE_MS)]).
Proof.
  intros t0 p0 before t1 p_off later t c Hlast Hnow Hoff Hlater Ht.
  assert (Hwf : card_wf c) by (apply run_wf, mount_wf).
  split; [reflexivity|]. split.
  { destruct Hwf as [_ Hon]. destruct (Hon Hlast) as [Hshow _].
    unfold status_dot. rewrite Hshow. reflexivity. }
  destruct (render_opens_grace t1 p_off c Hwf Hlast Hnow Hoff)
    as ((_ & Hshow & Hwin & _) & Hraw & h & Hp & Href & Htime).
  assert (Hcount : counting_down (t1 + OFFLINE_GRACE_MS) (render t1 p_off c)).
  { split; [exact Hraw|]. left. split; [exact Hshow|]. split; [lia|].
    exists h. split; assumption. }
  assert (Hall : Forall (fun u => rawOnline (snd u) = false /\ fst u <= t) later).
  { eapply Forall_impl; [|exact Hlater]. simpl. intros u [Hu Hb]. split; [exact Hu | lia]. }
  simpl.
  destruct (run_counting_down (t1 + OFFLINE_GRACE_MS) t later _ Hcount
              ltac:(lia) Hall) as [Hc Hb].
  split; [apply shown_at_counting_down; assumption|].
  intros Hearly.
  destruct Hc as [_ [(_ & _ & h' & Hp' & _)|(_ & Hfired & _)]]; [|lia].
  exists h'. exact Hp'.
Qed.

(** C10.  A card whose raw online flag is false when it mounts starts with
    the displayed flag false: its first render shows offline, it still
    does once the mount effects have run, and it shows offline at every
    later instant as long as no raw [true] arrives.  No grace period is
    waited for. *)
Theorem offline_at_mount_no_grace :
  forall t0 p,
    rawOnline p = false ->
    isOnline (first_render t0 p) = false /\
    status_dot (first_render t0 p) = "offline"%string /\
    status_dot (mount t0 p) = "offline"%string /\
    (forall later t,
       Forall (fun u => rawOnline (snd u) = false) later ->
       shown_at t (run (mount t0 p) later) = "offline"%string).
Proof.
  intros t0 p Hraw.
  assert (Hfirst : isOnline (first_render t0 p) = false) by exact Hraw.
  assert (Hmount : isOnline (mount t0 p) = false).
  { unfold mount, debounce_effect, first_render. rewrite Hraw. reflexivity. }
  split; [exact Hfirst|]. split; [|split].
  - unfold status_dot. rewrite Hfirst. reflexivity.
  - unfold status_dot. rewrite Hmount. reflexivity.
  - intros later t Hlater. unfold shown_at, status_dot, advance. card_fields.
    rewrite fire_due_stays_offline; [reflexivity|].
    apply run_stays_offline; assumption.
Qed.

End CardFacts.

(** A [false] at 5 s, repeated at 9 s, and a [true] at 16.999 s: the card
    shows online at 16.999 s before the [true] is seen, and after it. *)
Lemma grace_suppresses_flicker_witness :
  let c := ServerCard.run (ServerCard.mount 0 ServerCard.online_props) [] in
  ServerCard.shown_at 16999
    (ServerCard.run c [(5000, ServerCard.offline_props);
                       (9000, ServerCard.offline_props)]) = "online"%string /\
  ServerCard.status_dot
    (ServerCard.run c ((5000, ServerCard.offline_props)
                       :: [(9000, ServerCard.offline_props)]
                       ++ [(16999, ServerCard.online_props)])) = "online"%string.
Proof.
  intros c.
  destruct grace_suppresses_flicker as (_ & Hwindow & _).
  destruct (Hwindow 0 ServerCard.online_props [] 5000 ServerCard.offline_props
              [(9000, ServerCard.offline_props)] 16999 ServerCard.online_props)
    as [Hbetween Hafter].
  - reflexivity.
  - simpl. lia.
  - reflexivity.
  - reflexivity.
  - unfold ServerCard.OFFLINE_GRACE_MS. lia.
  - repeat constructor; simpl; lia.
  - split; [|exact Hafter].
    apply (Hbetween [(9000, ServerCard.offline_props)] []); [reflexivity | lia].
Defined.

(** A [false] at 5 s repeated at 10 s and 16 s: still online at 16.999 s,
    offline at 17 s. *)
Lemma offline_once_after_grace_witness :
  let later := [(10000, ServerCard.offline_props);
                (16000, ServerCard.offline_props)] in
  ServerCard.shown_at 17000
    (ServerCard.run (ServerCard.mount 0 ServerCard.online_props)
       ((5000, ServerCard.offline_props) :: later)) = "offline"%string.
Proof.
  intros later.
  destruct (offline_once_after_grace 0 ServerCard.online_props [] 5000
              ServerCard.offline_props later 17000) as (_ & _ & Hshown & _).
  - reflexivity.
  - simpl. lia.
  - reflexivity.
  - repeat constructor; simpl; lia.
  - lia.
  - exact Hshown.
Defined.

(** Mounted with a false flag, the card shows offline at once. *)
Lemma offline_at_mount_no_grace_witness :
  ServerCard.rawOnline ServerCard.offline_props = false /\
  ServerCard.status_dot (ServerCard.first_render 0 ServerCard.offline_props)
    = "offline"%string /\
  ServerCard.shown_at 1
    (ServerCard.run (ServerCard.mount 0 ServerCard.offline_props) [])
    = "offline"%string.
Proof.
  split; [reflexivity|].
  destruct (offline_at_mount_no_grace 0 ServerCard.offline_props eq_refl)
    as (_ & Hfirst & _ & Hlater).
  split; [exact Hfirst|]. apply Hlater. constructor.
Defined.

(* ------------------------------------------------------------------------- *)
(** ** The reconnecting subscription                                          *)
(* ------------------------------------------------------------------------- *)

Section HookFacts.

Import UseWebSocket.

Variable Frame : Type.
Variable JSON_parse : string -> option Frame.

Abbreviation hook := (UseWebSocket.hook Frame).
Abbreviation step := (UseWebSocket.step JSON_parse).
Abbreviation run := (UseWebSocket.run JSON_parse).

(** Reduce field accesses and setters, and nothing else. *)
Ltac hook_fields :=
  cbn [data status wsRef reconnectTimeoutRef retryCountRef isMountedRef
       token sockets timers next_handle console
       set_data set_status set_wsRef set_reconnectTimeoutRef
       set_retryCountRef set_isMountedRef set_token set_sockets set_timers
       log set_sock setTimeout sock fst snd andb negb] in *.

Ltac hook_unfold :=
  unfold step, UseWebSocket.step, effect, cleanup, disconnect, teardown,
         connect, onopen, onmessage, onclose, onerror, ws_close, set_sock,
         sock in *.

(** Split on every test the handlers make. *)
Ltac hook_cases :=
  repeat (hook_fields;
          match goal with
          | |- context [negb ?b] => is_var b; destruct b
          | |- context [andb ?b _] => is_var b; destruct b
          | |- context [match nth_error ?l ?i with _ => _ end] =>
              destruct (nth_error l i) as [[| | |]|] eqn:?
          | |- context [if ?b then _ else _] => destruct b eqn:?
          | |- context [match ?r with Some _ => _ | None => _ end] =>
              destruct r eqn:?
          | |- context [match ?r with CONNECTING => _ | _ => _ end] =>
              destruct r eqn:?
          end).

Lemma run_snoc (h : hook) tr e : run h (tr ++ [e]) = step (run h tr) e.
Proof.
  revert h. induction tr as [|e' tr IH]; intros h; simpl;
    [reflexivity | apply IH].
Qed.

(** *** Status and retry counter *)

Lemma initial_status_ok tok : status_ok (initial (Frame := Frame) tok).
Proof. split; [reflexivity | right; right; reflexivity]. Qed.

Lemma step_status_ok (h : hook) e : status_ok h -> status_ok (step h e).
Proof.
  intros [Hzero Hdom]. destruct h as [d s w r n m tk so ti nh co].
  hook_fields.
  destruct e; hook_unfold; hook_cases; unfold status_ok; hook_fields;
    (split; [ first [ exact Hzero | discriminate | reflexivity ]
            | first [ exact Hdom | left; reflexivity
                    | right; left; reflexivity | right; right; reflexivity ] ]).
Qed.

Lemma run_status_ok tr : forall h : hook, status_ok h -> status_ok (run h tr).
Proof.
  induction tr as [|e tr IH]; intros h Hok; simpl;
    [exact Hok | apply IH, step_status_ok, Hok].
Qed.

(** How one event moves the retry counter. *)
Lemma step_retryCountRef (h : hook) e :
  retryCountRef (step h e) =
  if opens h e then 0%nat
  else if closes h e then S (retryCountRef h)
  else retryCountRef h.
Proof.
  destruct h as [d s w r n m tk so ti nh co].
  destruct e; unfold opens, closes; hook_unfold; hook_cases; hook_fields;
    try reflexivity; try discriminate; try apply Nat.add_1_r.
Qed.

Lemma retry_counts_closes tr : forall (h : hook),
  retryCountRef (run h tr) = closes_since_open JSON_parse (retryCountRef h) h tr.
Proof.
  induction tr as [|e tr IH]; intros h; simpl; [reflexivity|].
  rewrite IH, step_retryCountRef. reflexivity.
Qed.

(** What a close that reaches [onclose] does. *)
Lemma close_schedules (h : hook) ws :
  closes h (WsClose ws) = true ->
  timers (step h (WsClose ws)) =
    timers h ++ [(next_handle h, backoff_delay (retryCountRef h))] /\
  reconnectTimeoutRef (step h (WsClose ws)) = Some (next_handle h) /\
  status (step h (WsClose ws)) = "disconnected"%string /\
  wsRef (step h (WsClose ws)) = None.
Proof.
  destruct h as [d s w r n m tk so ti nh co].
  unfold closes; hook_unfold; hook_fields. intros Hc.
  destruct m; [|discriminate Hc]. cbn [andb] in Hc.
  destruct (nth_error so ws) as [[| | |]|]; try discriminate Hc;
    hook_fields; cbn [negb]; hook_fields; repeat split.
Qed.

Lemma newest_delay_snoc (l : list (nat * Z)) id delay (h : hook) :
  timers h = l ++ [(id, delay)] -> newest_delay h = Some delay.
Proof.
  intros Ht. unfold newest_delay. rewrite Ht, rev_app_distr. reflexivity.
Qed.

Lemma backoff_delay_capped n : (5 <= n)%nat -> backoff_delay n = 30000.
Proof.
  intros Hn. unfold backoff_delay.
  assert (2 ^ 5 <= 2 ^ Z.of_nat n) by (apply Z.pow_le_mono_r; lia).
  change (2 ^ 5) with 32 in *. lia.
Qed.

Lemma open_connects (h : hook) e :
  opens h e = true ->
  status (step h e) = "connected"%string /\ retryCountRef (step h e) = 0%nat.
Proof.
  destruct h as [d s w r n m tk so ti nh co].
  destruct e; unfold opens; try discriminate. hook_fields.
  destruct m; [|discriminate]. cbn [andb].
  hook_unfold; hook_fields.
  destruct (nth_error so ws) as [[| | |]|]; try discriminate.
  intros _. hook_fields. split; reflexivity.
Qed.

(** C1.  Along any run of the hook from its initial state, a close that
    reaches [onclose] (an unexpected close: the hook is mounted and the
    socket was not yet closed) sets one timer whose delay is
    [min (1000 * 2^n) 30000] ms, [n] being the number of such closes since
    the last open that reached [onopen] (or since the start).  The delays
    for n = 0, 1, 2, ... are 1000, 2000, 4000, 8000, 16000, 30000, 30000
    and stay at 30000; an open sets the counter back to 0, so that the
    close following it is again answered with 1000 ms. *)
Theorem reconnect_backoff_schedule :
  (forall tok tr ws,
     let h := run (initial tok) tr in
     let n := closes_since_open JSON_parse 0 (initial tok) tr in
     closes h (WsClose ws) = true ->
     retryCountRef h = n /\
     timers (step h (WsClose ws)) =
       timers h ++ [(next_handle h, Z.min (1000 * 2 ^ Z.of_nat n) 30000)] /\
     reconnectTimeoutRef (step h (WsClose ws)) = Some (next_handle h)) /\
  map backoff_delay (seq 0 7) =
    [1000; 2000; 4000; 8000; 16000; 30000; 30000] /\
  (forall n, (5 <= n)%nat -> backoff_delay n = 30000) /\
  (forall tok tr ws ws',
     let h := run (initial tok) tr in
     opens h (WsOpen ws) = true ->
     retryCountRef (step h (WsOpen ws)) = 0%nat /\
     (closes (step h (WsOpen ws)) (WsClose ws') = true ->
      newest_delay (run h [WsOpen ws; WsClose ws']) = Some 1000)).
Proof.
  split; [|split; [reflexivity | split; [exact backoff_delay_capped|]]].
  - intros tok tr ws h n Hclose.
    assert (Hn : retryCountRef h = n).
    { subst h n. rewrite retry_counts_closes. reflexivity. }
    destruct (close_schedules h ws Hclose) as (Htimers & Href & _).
    rewrite Hn in Htimers. split; [exact Hn|]. split; assumption.
  - intros tok tr ws ws' h Hopen.
    destruct (open_connects h _ Hopen) as [_ Hzero].
    split; [exact Hzero|]. intros Hclose. simpl.
    destruct (close_schedules _ ws' Hclose) as (Htimers & _).
    rewrite Hzero in Htimers.
    apply (newest_delay_snoc _ _ _ _ Htimers).
Qed.

(** C8.  In every state the hook reaches from its initial state: the
    status is one of 'connecting', 'connected', 'disconnected'; if it is
    'connected' the retry counter is 0.  An open that reaches [onopen]
    leaves the status 'connected' and the counter 0; the counter grows
    only by a close that reaches [onclose], by exactly one, and that close
    leaves the status 'disconnected'. *)
Theorem connected_means_no_retries :
  forall tok tr,
    let h := run (initial tok) tr in
    (status h = "connected"%string -> retryCountRef h = 0%nat) /\
    (status h = "connecting"%string \/ status h = "connected"%string \/
     status h = "disconnected"%string) /\
    (forall e,
       (opens h e = true ->
        status (step h e) = "connected"%string /\
        retryCountRef (step h e) = 0%nat) /\
       ((retryCountRef h < retryCountRef (step h e))%nat ->
        closes h e = true /\
        retryCountRef (step h e) = S (retryCountRef h) /\
        status (step h e) = "disconnected"%string)).
Proof.
  intros tok tr h.
  destruct (run_status_ok tr _ (initial_status_ok tok)) as [Hzero Hdom].
  split; [exact Hzero|]. split; [exact Hdom|].
  intros e. split; [apply open_connects|].
  rewrite step_retryCountRef.
  destruct (opens h e); [lia|].
  destruct (closes h e) eqn:Hclose; [|lia].
  intros _. split; [reflexivity|]. split; [reflexivity|].
  destruct e; try discriminate Hclose.
  apply (close_schedules h ws Hclose).
Qed.

(** C5.  A message whose payload [JSON.parse] rejects changes nothing but
    the console: the latest frame, the status, the socket table (so the
    connection stays as it was, open if it was open), the refs, the retry
    counter and the timers are the same, and when the handler runs (hook
    mounted, socket open) exactly one warning is logged. *)
Theorem malformed_frame_discarded :
  forall (h : hook) ws payload,
    JSON_parse payload = None ->
    let h' := step h (WsMessage ws payload) in
    data h' = data h /\ status h' = status h /\
    sockets h' = sockets h /\ sock ws h' = sock ws h /\
    wsRef h' = wsRef h /\ reconnectTimeoutRef h' = reconnectTimeoutRef h /\
    retryCountRef h' = retryCountRef h /\ isMountedRef h' = isMountedRef h /\
    timers h' = timers h /\ next_handle h' = next_handle h /\
    token h' = token h /\
    console h' =
      (if isMountedRef h &&
          match sock ws h with Some OPEN => true | _ => false end
       then Warn_parse payload :: console h
       else console h).
Proof.
  intros h ws payload Hbad h'.
  assert (Hstep : h' = if isMountedRef h &&
                          match sock ws h with Some OPEN => true | _ => false end
                       then log Frame (Warn_parse payload) h else h).
  { subst h'. unfold UseWebSocket.step, onmessage. rewrite Hbad.
    destruct (sock ws h) as [[| | |]|], (isMountedRef h); reflexivity. }
  rewrite Hstep.
  destruct (isMountedRef h &&
            match sock ws h with Some OPEN => true | _ => false end);
    repeat split; reflexivity.
Qed.

(** *** Sockets and timers as tables *)

Lemma nth_error_set_nth (A : Type) (l : list A) : forall i j (x : A),
  nth_error (set_nth i x l) j =
  if (i =? j)%nat
  then match nth_error l i with Some _ => Some x | None => None end
  else nth_error l j.
Proof.
  induction l as [|y l IH]; intros i j x.
  - destruct i, j; simpl; try reflexivity. destruct (i =? j)%nat; reflexivity.
  - destruct i, j; simpl; try reflexivity. apply IH.
Qed.

Lemma length_set_nth (A : Type) (l : list A) : forall i (x : A),
  length (set_nth i x l) = length l.
Proof.
  induction l as [|y l IH]; intros [|i] x; simpl; try reflexivity.
  now rewrite IH.
Qed.

Lemma nth_error_snoc (A : Type) (l : list A) (x : A) j :
  nth_error (l ++ [x]) j =
  if (j =? length l)%nat then Some x else nth_error l j.
Proof.
  destruct (Nat.eqb_spec j (length l)) as [->|Hne].
  - rewrite nth_error_app2 by lia. now rewrite Nat.sub_diag.
  - destruct (Nat.lt_ge_cases j (length l)) as [Hlt|Hge].
    + now rewrite nth_error_app1.
    + rewrite nth_error_app2 by lia.
      destruct (j - length l)%nat as [|k] eqn:Hk; [lia|].
      simpl. destruct k; simpl; symmetry; apply nth_error_None; lia.
Qed.

Lemma clearTimeout_not_pending id (l : list (nat * Z)) :
  is_pending id (clearTimeout (Some id) l) = false.
Proof.
  unfold is_pending, clearTimeout.
  induction l as [|[i d] l IH]; simpl; [reflexivity|].
  destruct (Nat.eqb_spec i id) as [->|Hne]; simpl; [exact IH|].
  destruct (Nat.eqb_spec i id); [contradiction | exact IH].
Qed.

Lemma clearTimeout_pending r id (l : list (nat * Z)) :
  is_pending id (clearTimeout r l) = true -> is_pending id l = true.
Proof.
  unfold is_pending, clearTimeout. destruct r as [h|]; [|tauto].
  induction l as [|[i d] l IH]; simpl; [tauto|].
  destruct (i =? h)%nat; simpl.
  - intros H. rewrite (IH H). apply orb_true_r.
  - destruct (i =? id)%nat; simpl; [reflexivity | exact IH].
Qed.

Lemma clearTimeout_nil r : clearTimeout r [] = [].
Proof. destruct r; reflexivity. Qed.

Lemma clearTimeout_only id delay :
  clearTimeout (Some id) [(id, delay)] = [].
Proof. unfold clearTimeout. simpl. now rewrite Nat.eqb_refl. Qed.

Lemma is_pending_only id id' delay :
  is_pending id [(id', delay)] = true -> id' = id.
Proof.
  unfold is_pending. simpl. rewrite orb_false_r. apply Nat.eqb_eq.
Qed.

(** *** A hook without a token stays down *)

Lemma closed_sock (h : hook) ws :
  all_closed h -> sock ws h = Some CLOSED \/ sock ws h = None.
Proof.
  intros Hall. destruct (sock ws h) as [st|] eqn:Hs; [|right; reflexivity].
  left. now rewrite (Hall ws st Hs).
Qed.

Lemma step_quiescent (h : hook) e :
  quiescent h -> invokes_connect e = false ->
  quiescent (step h e) /\ sockets (step h e) = sockets h /\
  (status h = "disconnected"%string ->
   status (step h e) = "disconnected"%string).
Proof.
  intros [Htimers Hall] He.
  assert (Hsame : sockets (step h e) = sockets h /\ timers (step h e) = [] /\
                  (status h = "disconnected"%string ->
                   status (step h e) = "disconnected"%string)).
  { destruct e; try discriminate He; unfold UseWebSocket.step.
    - (* Unmount *)
      unfold cleanup, teardown. hook_fields. rewrite Htimers, clearTimeout_nil.
      destruct (wsRef h) as [ws|]; [|auto].
      unfold ws_close.
      destruct (closed_sock _ ws Hall) as [Hs|Hs];
        unfold sock in *; hook_fields; rewrite Hs; auto.
    - (* CallDisconnect *)
      unfold disconnect, teardown. hook_fields.
      rewrite Htimers, clearTimeout_nil.
      destruct (wsRef h) as [ws|]; [|auto].
      unfold ws_close.
      destruct (closed_sock _ ws Hall) as [Hs|Hs];
        unfold sock in *; hook_fields; rewrite Hs; auto.
    - destruct (closed_sock h ws Hall) as [Hs|Hs]; rewrite Hs; auto.
    - destruct (closed_sock h ws Hall) as [Hs|Hs]; rewrite Hs; auto.
    - destruct (closed_sock h ws Hall) as [Hs|Hs]; rewrite Hs; auto.
    - destruct (closed_sock h ws Hall) as [Hs|Hs]; rewrite Hs; auto.
    - rewrite Htimers. cbn [is_pending existsb]. auto.
    - hook_fields. auto. }
  destruct Hsame as (Hsock & Ht & Hst).
  split; [|split; assumption].
  split; [exact Ht|]. unfold all_closed, sock in *. rewrite Hsock. exact Hall.
Qed.

Lemma run_quiescent tr : forall (h : hook),
  quiescent h -> Forall (fun e => invokes_connect e = false) tr ->
  status h = "disconnected"%string ->
  quiescent (run h tr) /\ sockets (run h tr) = sockets h /\
  status (run h tr) = "disconnected"%string.
Proof.
  induction tr as [|e tr IH]; intros h Hq Hall Hst; simpl.
  - auto.
  - inversion Hall as [|e' tr' He Htr]; subst.
    destruct (step_quiescent h e Hq He) as (Hq' & Hsock & Hst').
    destruct (IH _ Hq' Htr (Hst' Hst)) as (Hq'' & Hsock' & Hst'').
    split; [exact Hq''|]. split; [congruence | exact Hst''].
Qed.


(** *** Teardown *)

Lemma teardown_isMountedRef (h : hook) : isMountedRef (teardown h) = false.
Proof.
  destruct h as [d s [ws|] r n m tk so ti nh co];
    unfold teardown, ws_close, sock, set_sock; hook_fields; [|reflexivity].
  destruct (nth_error so ws) as [[| | |]|]; reflexivity.
Qed.

Lemma teardown_timers (h : hook) :
  timers (teardown h) = clearTimeout (reconnectTimeoutRef h) (timers h).
Proof.
  destruct h as [d s [ws|] r n m tk so ti nh co];
    unfold teardown, ws_close, sock, set_sock; hook_fields; [|reflexivity].
  destruct (nth_error so ws) as [[| | |]|]; reflexivity.
Qed.

Lemma teardown_wsRef (h : hook) : wsRef (teardown h) = None.
Proof.
  unfold teardown. hook_fields. destruct (wsRef h) as [ws|] eqn:Hw;
    [reflexivity | exact Hw].
Qed.

Lemma teardown_closes_socket (h : hook) ws :
  wsRef h = Some ws ->
  sock ws (teardown h) <> Some CONNECTING /\ sock ws (teardown h) <> Some OPEN.
Proof.
  destruct h as [d s w r n m tk so ti nh co]. hook_fields. intros ->.
  unfold teardown, ws_close, sock, set_sock. hook_fields.
  destruct (nth_error so ws) as [[| | |]|] eqn:Hs; hook_fields;
    try rewrite nth_error_set_nth, Nat.eqb_refl; rewrite Hs;
    split; discriminate.
Qed.

(** Once the hook is torn down, only a new mount can make it act: no event
    creates a socket, sets a timer, stores a frame or touches the retry
    counter, and the status can only be set to 'disconnected'. *)
Lemma step_stopped (h : hook) e :
  isMountedRef h = false -> e <> Mount ->
  isMountedRef (step h e) = false /\
  length (sockets (step h e)) = length (sockets h) /\
  next_handle (step h e) = next_handle h /\
  data (step h e) = data h /\
  retryCountRef (step h e) = retryCountRef h /\
  (status (step h e) = status h \/
   status (step h e) = "disconnected"%string) /\
  (forall id, is_pending id (timers (step h e)) = true ->
              is_pending id (timers h) = true).
Proof.
  intros Hm He. destruct h as [d s w r n m tk so ti nh co].
  hook_fields. subst m.
  destruct e; [congruence | | | | | | | | | ];
    hook_unfold; hook_cases; hook_fields;
    rewrite ?length_set_nth;
    repeat split; try (left; reflexivity); try (right; reflexivity);
    try (intros; eapply clearTimeout_pending; eassumption); trivial.
Qed.

Lemma run_stopped tr : forall (h : hook),
  isMountedRef h = false -> Forall (fun e => e <> Mount) tr ->
  isMountedRef (run h tr) = false /\
  length (sockets (run h tr)) = length (sockets h) /\
  next_handle (run h tr) = next_handle h /\
  data (run h tr) = data h /\
  retryCountRef (run h tr) = retryCountRef h /\
  (status (run h tr) = status h \/
   status (run h tr) = "disconnected"%string) /\
  (forall id, is_pending id (timers (run h tr)) = true ->
              is_pending id (timers h) = true).
Proof.
  induction tr as [|e tr IH]; intros h Hm Hall; simpl.
  - repeat split; auto.
  - inversion Hall as [|e' tr' He Htr]; subst.
    destruct (step_stopped h e Hm He) as (Hm' & Hl & Hn & Hd & Hr & Hs & Hp).
    destruct (IH _ Hm' Htr) as (Hm'' & Hl' & Hn' & Hd' & Hr' & Hs' & Hp').
    repeat split; try congruence; [|auto].
    destruct Hs' as [Hs'|Hs']; [|right; exact Hs'].
    destruct Hs as [Hs|Hs]; [left | right]; congruence.
Qed.

(** *** One connection at a time *)

Lemma tidy_frame (h h' : hook) :
  tidy h -> isMountedRef h = true -> isMountedRef h' = true ->
  wsRef h' = wsRef h -> timers h' = timers h ->
  reconnectTimeoutRef h' = reconnectTimeoutRef h ->
  (forall ws st', sock ws h' = Some st' -> st' <> CLOSED ->
                  exists st, sock ws h = Some st /\ st <> CLOSED) ->
  tidy h'.
Proof.
  unfold tidy. intros Ht Hm Hm' Hw Hti Hr Hsock.
  rewrite Hm in Ht. rewrite Hm', Hw, Hti, Hr.
  destruct Ht as [HA HB]. split.
  - intros ws st' Hs Hne. destruct (Hsock ws st' Hs Hne) as (st & Hs0 & Hne0).
    exact (HA ws st Hs0 Hne0).
  - destruct HB as [Hnil|[Hone Hall]]; [left; exact Hnil|].
    right. split; [exact Hone|]. intros ws st' Hs.
    destruct st'; try reflexivity;
      (destruct (Hsock ws _ Hs) as (st & Hs0 & Hne0); [discriminate|];
       now rewrite (Hall ws st Hs0) in Hne0).
Qed.

Lemma tidy_unmounted (h : hook) e :
  isMountedRef h = false -> timers h = [] -> e <> Mount -> tidy (step h e).
Proof.
  intros Hm Ht He.
  destruct (step_stopped h e Hm He) as (Hm' & _ & _ & _ & _ & _ & Hp).
  unfold tidy. rewrite Hm'.
  destruct (timers (step h e)) as [|[id d] rest]; [reflexivity|].
  specialize (Hp id). rewrite Ht in Hp. cbn in Hp.
  rewrite Nat.eqb_refl in Hp. discriminate (Hp eq_refl).
Qed.

Lemma tidy_teardown (h : hook) : tidy h -> tidy (teardown h).
Proof.
  unfold tidy. intros Ht.
  rewrite teardown_isMountedRef, teardown_timers.
  destruct (isMountedRef h).
  - destruct Ht as [_ [Hnil|[(id & delay & Hone & Hr) _]]].
    + rewrite Hnil. apply clearTimeout_nil.
    + rewrite Hone, Hr. apply clearTimeout_only.
  - rewrite Ht. apply clearTimeout_nil.
Qed.

Lemma tidy_close (h : hook) ws st :
  tidy h -> isMountedRef h = true -> sock ws h = Some st -> st <> CLOSED ->
  tidy (onclose (set_sock Frame ws CLOSED h)).
Proof.
  unfold tidy. intros Ht Hm Hs Hne. rewrite Hm in Ht. destruct Ht as [HA HB].
  assert (Hw : wsRef h = Some ws) by exact (HA ws st Hs Hne).
  assert (Hnil : timers h = []).
  { destruct HB as [Hnil|[_ Hall]]; [exact Hnil|].
    now rewrite (Hall ws st Hs) in Hne. }
  assert (Hall' : forall ws' st', nth_error (set_nth ws CLOSED (sockets h)) ws'
                                  = Some st' -> st' = CLOSED).
  { intros ws' st' Hs'. rewrite nth_error_set_nth in Hs'.
    destruct (Nat.eqb_spec ws ws') as [->|Hdiff].
    - unfold sock in Hs. rewrite Hs in Hs'. congruence.
    - destruct st'; try reflexivity;
        (assert (Hw' : wsRef h = Some ws') by (apply (HA ws' _ Hs'); discriminate);
         congruence). }
  unfold onclose, set_sock. hook_fields. rewrite Hm. cbn [negb]. hook_fields.
  rewrite Hnil. split.
  - intros ws' st' Hs' Hne'. now rewrite (Hall' ws' st' Hs') in Hne'.
  - right. split; [|exact Hall'].
    eexists. eexists. split; reflexivity.
Qed.

Lemma tidy_connect (h : hook) :
  isMountedRef h = true -> timers h = [] -> all_closed h -> tidy (connect h).
Proof.
  intros Hm Hnil Hall. unfold connect, tidy. rewrite Hm. cbn [negb].
  destruct (no_token (token h)); hook_fields; rewrite Hm, Hnil.
  - split; [|left; reflexivity].
    intros ws st Hs Hne. now rewrite (Hall ws st Hs) in Hne.
  - split; [|left; reflexivity].
    intros ws st Hs Hne. unfold sock in Hs. hook_fields.
    rewrite nth_error_snoc in Hs.
    destruct (Nat.eqb_spec ws (length (sockets h))) as [->|_]; [reflexivity|].
    now rewrite (Hall ws st Hs) in Hne.
Qed.

Lemma step_tidy (h : hook) e :
  tidy h -> invokes_connect e = false -> tidy (step h e).
Proof.
  intros Ht He. destruct (isMountedRef h) eqn:Hm.
  2:{ apply tidy_unmounted; [exact Hm | | intros ->; discriminate He].
      unfold tidy in Ht. now rewrite Hm in Ht. }
  destruct e; try discriminate He; unfold UseWebSocket.step.
  - apply tidy_teardown, Ht.
  - unfold disconnect. pose proof (tidy_teardown h Ht) as Ht'.
    unfold tidy in *. hook_fields. exact Ht'.
  - (* open *)
    destruct (sock ws h) as [[| | |]|] eqn:Hs; try exact Ht.
    unfold onopen, set_sock. hook_fields. rewrite Hm. cbn [negb].
    apply (tidy_frame h); try reflexivity; try assumption.
    intros ws' st' Hs' Hne. unfold sock in Hs'. hook_fields.
    rewrite nth_error_set_nth in Hs'.
    destruct (Nat.eqb_spec ws ws') as [->|_].
    + exists CONNECTING. split; [exact Hs | discriminate].
    + exists st'. split; [exact Hs' | exact Hne].
  - (* message *)
    destruct (sock ws h) as [[| | |]|] eqn:Hs; try exact Ht.
    unfold onmessage. rewrite Hm. cbn [negb].
    destruct (JSON_parse payload);
      (apply (tidy_frame h); try reflexivity; try assumption;
       intros ws' st' Hs' Hne; exists st'; split; assumption).
  - (* error *)
    destruct (sock ws h) as [st|] eqn:Hs; [|exact Ht].
    destruct st; try exact Ht;
      (unfold onerror, ws_close, sock, set_sock; hook_fields;
       unfold sock in Hs; rewrite Hs;
       apply (tidy_frame h); try reflexivity; try assumption;
       intros ws' st' Hs' Hne; unfold sock in Hs'; hook_fields;
       try rewrite nth_error_set_nth in Hs';
       try (destruct (Nat.eqb_spec ws ws') as [->|_]);
       first [ eexists; split; [exact Hs | discriminate]
             | exists st'; split; [exact Hs' | exact Hne] ]).
  - (* close *)
    destruct (sock ws h) as [st|] eqn:Hs; [|exact Ht].
    destruct st; try exact Ht;
      (apply (tidy_close h ws _ Ht Hm Hs); discriminate).
  - (* timer *)
    destruct (is_pending handle (timers h)) eqn:Hp; [|exact Ht].
    unfold tidy in Ht. rewrite Hm in Ht.
    destruct Ht as [_ [Hnil|[(id & delay & Hone & Hr) Hall]]].
    + rewrite Hnil in Hp. discriminate Hp.
    + rewrite Hone in Hp. apply is_pending_only in Hp. subst id.
      apply tidy_connect; hook_fields.
      * exact Hm.
      * rewrite Hone. apply clearTimeout_only.
      * exact Hall.
  - (* token *)
    apply (tidy_frame h); try reflexivity; try assumption.
    intros ws' st' Hs' Hne. exists st'. split; assumption.
Qed.

Lemma run_tidy tr : forall (h : hook),
  tidy h -> Forall (fun e => invokes_connect e = false) tr -> tidy (run h tr).
Proof.
  induction tr as [|e tr IH]; intros h Ht Hall; simpl; [exact Ht|].
  inversion Hall as [|e' tr' He Htr]; subst.
  apply IH; [apply step_tidy; assumption | exact Htr].
Qed.

Lemma mount_tidy tok : tidy (step (initial tok) Mount).
Proof.
  unfold UseWebSocket.step, effect. apply tidy_connect; try reflexivity.
  intros ws st Hs. unfold sock in Hs. simpl in Hs. destruct ws; discriminate.
Qed.

Lemma none_pending_nil (l : list (nat * Z)) :
  (forall id, is_pending id l = true -> False) -> l = [].
Proof.
  destruct l as [|[id d] rest]; [reflexivity|]. intros Hnone.
  exfalso. apply (Hnone id). unfold is_pending. simpl.
  now rewrite Nat.eqb_refl.
Qed.

Lemma step_tears_down (h : hook) e :
  tears_down e = true ->
  isMountedRef (step h e) = false /\ wsRef (step h e) = None /\
  timers (step h e) = clearTimeout (reconnectTimeoutRef h) (timers h) /\
  (forall ws, sock ws (step h e) = sock ws (teardown h)).
Proof.
  intros He. destruct e; try discriminate He;
    unfold UseWebSocket.step, cleanup, disconnect; hook_fields;
    (split; [apply teardown_isMountedRef|]);
    (split; [apply teardown_wsRef|]);
    (split; [apply teardown_timers | reflexivity]).
Qed.

(** What a teardown does achieve.  A teardown (effect cleanup or
    [disconnect]) marks the hook unmounted, clears the timer whose handle
    is in [reconnectTimeoutRef], starts closing the socket in [wsRef] and
    nulls that ref.  From then on, whatever happens short of a new run of
    the mount effect (socket events, a timer elapsing, calls of the
    returned functions), the hook stays unmounted and makes no reconnect
    attempt: no socket is created, no timer is set, frame and retry
    counter are untouched, the status is at most set to 'disconnected',
    and no timer becomes pending that was not.  When the mount effect has
    run once only and [reconnect] was never called, the cleared timer was
    the only one, so none is pending after teardown, nor later.
    Unmounting a server card clears its one grace timer, after which what
    the card shows never changes. *)
Theorem teardown_stops_reconnection :
  (forall (h : hook) e,
     tears_down e = true ->
     let h' := step h e in
     isMountedRef h' = false /\ wsRef h' = None /\
     (forall id, reconnectTimeoutRef h = Some id ->
                 is_pending id (timers h') = false) /\
     (forall ws, wsRef h = Some ws ->
                 sock ws h' <> Some CONNECTING /\ sock ws h' <> Some OPEN) /\
     (forall tr,
        Forall (fun e' => e' <> Mount) tr ->
        isMountedRef (run h' tr) = false /\
        length (sockets (run h' tr)) = length (sockets h') /\
        next_handle (run h' tr) = next_handle h' /\
        data (run h' tr) = data h' /\
        retryCountRef (run h' tr) = retryCountRef h' /\
        (status (run h' tr) = status h' \/
         status (run h' tr) = "disconnected"%string) /\
        (forall id, is_pending id (timers (run h' tr)) = true ->
                    is_pending id (timers h') = true))) /\
  (forall tok tr e later,
     Forall (fun e' => invokes_connect e' = false) tr ->
     tears_down e = true ->
     Forall (fun e' => e' <> Mount) later ->
     timers (run (initial tok) (Mount :: tr ++ [e])) = [] /\
     timers (run (initial tok) (Mount :: tr ++ e :: later)) = []) /\
  (forall t0 p0 updates,
     let c := ServerCard.unmount
                (ServerCard.run (ServerCard.mount t0 p0) updates) in
     ServerCard.pending c = [] /\
     forall t,
       ServerCard.status_dot (ServerCard.advance t c) =
       ServerCard.status_dot (ServerCard.run (ServerCard.mount t0 p0) updates)).
Proof.
  split; [|split].
  - intros h e He h'.
    destruct (step_tears_down h e He) as (Hm & Hw & Ht & Hs).
    split; [exact Hm|]. split; [exact Hw|]. split; [|split].
    + intros id Hr. subst h'. rewrite Ht, Hr. apply clearTimeout_not_pending.
    + intros ws Hws. subst h'. rewrite Hs. apply teardown_closes_socket, Hws.
    + intros tr Htr. apply run_stopped; assumption.
  - intros tok tr e later Htr He Hlater.
    assert (Hend : timers (run (initial tok) (Mount :: tr ++ [e])) = [] /\
                   isMountedRef (run (initial tok) (Mount :: tr ++ [e])) = false).
    { cbn [UseWebSocket.run]. rewrite run_snoc.
      pose proof (run_tidy tr _ (mount_tidy tok) Htr) as Ht.
      destruct (step_tears_down (run (step (initial tok) Mount) tr) e He)
        as (Hm & _ & Htimers & _).
      split; [|exact Hm]. rewrite Htimers.
      pose proof (tidy_teardown _ Ht) as Ht'. unfold tidy in Ht'.
      now rewrite teardown_isMountedRef, teardown_timers in Ht'. }
    destruct Hend as [Hnil Hm]. split; [exact Hnil|].
    replace (Mount :: tr ++ e :: later)
      with ((Mount :: tr ++ [e]) ++ later)
      by (simpl; now rewrite <- app_assoc).
    assert (Happ : forall (h : hook) a b, run h (a ++ b) = run (run h a) b).
    { intros h a. revert h. induction a as [|x a IH]; intros h b; simpl;
        [reflexivity | apply IH]. }
    rewrite Happ.
    destruct (run_stopped later _ Hm Hlater) as (_ & _ & _ & _ & _ & _ & Hp).
    apply none_pending_nil. intros id Hid. apply Hp in Hid.
    rewrite Hnil in Hid. discriminate Hid.
  - intros t0 p0 updates. apply unmount_silences_card.
Qed.

End HookFacts.

(** Seven failed attempts in a row, then a successful one that closes
    later: the delays run 1 s, 2 s, 4 s, 8 s, 16 s, 30 s, 30 s, and the
    close after the open is answered with 1 s again. *)
Example backoff_run :
  UseWebSocket.delays_set Samples.parse_literal
    (UseWebSocket.initial (Some "jwt"%string))
    (UseWebSocket.Mount :: Samples.failure_loop 0 1 7
       ++ [UseWebSocket.WsOpen 7; UseWebSocket.WsClose 7])
  = [1000; 2000; 4000; 8000; 16000; 30000; 30000; 1000].
Proof. vm_compute. reflexivity. Qed.

(** The fourth close in a row sets an 8 s timer. *)
Lemma reconnect_backoff_schedule_witness :
  let tr := UseWebSocket.Mount :: Samples.failure_loop 0 1 3 in
  let h := UseWebSocket.run Samples.parse_literal
             (UseWebSocket.initial (Some "jwt"%string)) tr in
  UseWebSocket.closes h (UseWebSocket.WsClose 3) = true /\
  UseWebSocket.timers
    (UseWebSocket.step Samples.parse_literal h (UseWebSocket.WsClose 3))
  = [(4%nat, 8000)].
Proof.
  intros tr h. split; [reflexivity|].
  destruct (reconnect_backoff_schedule bool Samples.parse_literal)
    as (Hclose & _).
  destruct (Hclose (Some "jwt"%string) tr 3%nat eq_refl) as (_ & Htimers & _).
  exact Htimers.
Defined.

(** After an open the hook is 'connected' with no retries counted; the
    close that follows counts one and leaves it 'disconnected'. *)
Lemma connected_means_no_retries_witness :
  let tr := [UseWebSocket.Mount; UseWebSocket.WsClose 0;
             UseWebSocket.Timeout 1; UseWebSocket.WsOpen 1] in
  let h := UseWebSocket.run Samples.parse_literal
             (UseWebSocket.initial (Some "jwt"%string)) tr in
  UseWebSocket.status h = "connected"%string /\
  UseWebSocket.retryCountRef h = 0%nat /\
  UseWebSocket.status
    (UseWebSocket.step Samples.parse_literal h (UseWebSocket.WsClose 1))
  = "disconnected"%string.
Proof.
  intros tr h.
  destruct (connected_means_no_retries bool Samples.parse_literal
              (Some "jwt"%string) tr) as (Hzero & _ & Hstep).
  split; [reflexivity|]. split; [exact (Hzero eq_refl)|].
  destruct (Hstep (UseWebSocket.WsClose 1)) as [_ Hgrow].
  apply Hgrow. vm_compute. lia.
Defined.

(** A truncated frame on an open socket: logged, nothing else touched. *)
Lemma malformed_frame_discarded_witness :
  let h := UseWebSocket.run Samples.parse_literal
             (UseWebSocket.initial (Some "jwt"%string))
             [UseWebSocket.Mount; UseWebSocket.WsOpen 0;
              UseWebSocket.WsMessage 0 "true"] in
  let h' := UseWebSocket.step Samples.parse_literal h
              (UseWebSocket.WsMessage 0 "[1, 2") in
  Samples.parse_literal "[1, 2" = None /\
  UseWebSocket.data h' = Some true /\
  UseWebSocket.status h' = "connected"%string /\
  UseWebSocket.sock 0 h' = Some UseWebSocket.OPEN /\
  UseWebSocket.console h' = [UseWebSocket.Warn_parse "[1, 2"].
Proof.
  intros h h'. split; [reflexivity|].
  destruct (malformed_frame_discarded bool Samples.parse_literal h 0%nat
              "[1, 2" eq_refl)
    as (Hdata & Hstatus & _ & Hsock & _ & _ & _ & _ & _ & _ & _ & Hlog).
  fold h' in Hdata, Hstatus, Hsock, Hlog.
  rewrite Hdata, Hstatus, Hsock, Hlog. repeat split; reflexivity.
Defined.


(** Unmounting while a reconnect timer is pending clears it, and a later
    stray socket event or [reconnect] call starts nothing. *)
Lemma teardown_stops_reconnection_witness :
  let h := UseWebSocket.run Samples.parse_literal
             (UseWebSocket.initial (Some "jwt"%string))
             [UseWebSocket.Mount; UseWebSocket.WsClose 0] in
  let h' := UseWebSocket.step Samples.parse_literal h UseWebSocket.Unmount in
  UseWebSocket.reconnectTimeoutRef h = Some 1%nat /\
  UseWebSocket.is_pending 1 (UseWebSocket.timers h) = true /\
  UseWebSocket.is_pending 1 (UseWebSocket.timers h') = false /\
  UseWebSocket.next_handle
    (UseWebSocket.run Samples.parse_literal h'
       [UseWebSocket.Timeout 1; UseWebSocket.CallReconnect])
  = UseWebSocket.next_handle h' /\
  UseWebSocket.timers
    (UseWebSocket.run Samples.parse_literal
       (UseWebSocket.initial (Some "jwt"%string))
       (UseWebSocket.Mount :: [UseWebSocket.WsClose 0]
          ++ [UseWebSocket.Unmount])) = [].
Proof.
  intros h h'.
  destruct (teardown_stops_reconnection bool Samples.parse_literal)
    as (Hclear & Hsingle & _).
  destruct (Hclear h UseWebSocket.Unmount eq_refl)
    as (_ & _ & Htimer & _ & Hlater).
  destruct (Hlater [UseWebSocket.Timeout 1; UseWebSocket.CallReconnect])
    as (_ & _ & Hhandle & _).
  { repeat constructor; discriminate. }
  destruct (Hsingle (Some "jwt"%string) [UseWebSocket.WsClose 0]
              UseWebSocket.Unmount []) as [Hnone _].
  { repeat constructor. }
  { reflexivity. }
  { constructor. }
  split; [reflexivity|]. split; [reflexivity|].
  split; [exact (Htimer 1%nat eq_refl)|].
  split; [exact Hhandle | exact Hnone].
Defined.

(** A call of the returned [reconnect] while the first socket is alive
    leaves a timer behind as well: there are two sockets, each close sets a timer,
    the ref keeps only the second handle, and the cleanup clears only that
    one: the first timer is still pending after the unmount and elapses
    afterwards. *)
Lemma teardown_leaves_stale_timer :
  let h := UseWebSocket.run Samples.parse_literal
             (UseWebSocket.initial (Some "jwt"%string))
             [UseWebSocket.Mount; UseWebSocket.CallReconnect;
              UseWebSocket.WsClose 0; UseWebSocket.WsClose 1;
              UseWebSocket.Unmount] in
  UseWebSocket.isMountedRef h = false /\
  UseWebSocket.reconnectTimeoutRef h = Some 2%nat /\
  UseWebSocket.timers h = [(1%nat, 1000)] /\
  UseWebSocket.timers h <> [] /\
  UseWebSocket.is_pending 1 (UseWebSocket.timers h) = true /\
  UseWebSocket.timers
    (UseWebSocket.step Samples.parse_literal h (UseWebSocket.Timeout 1)) = [].
Proof.
  intros h. vm_compute. repeat split; try reflexivity. discriminate.
Qed.

(** C7.  The cleanup of the hook does not clear every pending reconnect
    timer and does not close every socket, so a timer does fire after an
    intentional teardown.  With [React.StrictMode] (main.jsx) React runs
    the mount effect, its cleanup and the effect again on one instance.
    The close event of the first socket then arrives while the hook is
    mounted again: its [onclose] nulls [wsRef] (which held the second
    socket) and sets timer 1.  If the second socket closes too, timer 2 is
    set and its handle replaces that of timer 1 in [reconnectTimeoutRef];
    the unmount then clears timer 2 only, timer 1 (1000 ms) is still
    pending after the teardown and elapses afterwards, its [connect]
    returning at the [isMountedRef] test.  If instead the second socket
    opens and timer 1 elapses while the hook is mounted, [connect] opens a
    third socket next to it, and the unmount closes the third only: the
    second is still open after the teardown, and is still open once the
    third has closed. *)
Theorem teardown_misses_earlier_timer :
  let mounted_twice :=
    [UseWebSocket.Mount; UseWebSocket.Unmount; UseWebSocket.Mount] in
  let h := UseWebSocket.run Samples.parse_literal
             (UseWebSocket.initial (Some "jwt"%string))
             (mounted_twice ++
              [UseWebSocket.WsClose 0; UseWebSocket.WsClose 1;
               UseWebSocket.Unmount]) in
  let g := UseWebSocket.run Samples.parse_literal
             (UseWebSocket.initial (Some "jwt"%string))
             (mounted_twice ++
              [UseWebSocket.WsClose 0; UseWebSocket.WsOpen 1;
               UseWebSocket.Timeout 1; UseWebSocket.WsOpen 2;
               UseWebSocket.Unmount]) in
  (UseWebSocket.isMountedRef h = false /\
   UseWebSocket.reconnectTimeoutRef h = Some 2%nat /\
   UseWebSocket.timers h = [(1%nat, 1000)] /\
   UseWebSocket.is_pending 1 (UseWebSocket.timers h) = true /\
   UseWebSocket.timers
     (UseWebSocket.step Samples.parse_literal h (UseWebSocket.Timeout 1)) = [] /\
   UseWebSocket.sockets
     (UseWebSocket.step Samples.parse_literal h (UseWebSocket.Timeout 1))
   = UseWebSocket.sockets h) /\
  (UseWebSocket.isMountedRef g = false /\
   UseWebSocket.wsRef g = None /\
   UseWebSocket.sockets g
   = [UseWebSocket.CLOSED; UseWebSocket.OPEN; UseWebSocket.CLOSING] /\
   UseWebSocket.sockets
     (UseWebSocket.step Samples.parse_literal g (UseWebSocket.WsClose 2))
   = [UseWebSocket.CLOSED; UseWebSocket.OPEN; UseWebSocket.CLOSED]).
Proof.
  intros mounted_twice h g. vm_compute.
  split.
  - do 5 (split; [reflexivity|]). reflexivity.
  - do 3 (split; [reflexivity|]). reflexivity.
Qed.

(* ========================================================================= *)
(** * Further properties of the front end                                     *)
(* ========================================================================= *)

(* ------------------------------------------------------------------------- *)
(** ** The detail page: history, byte counts, uptime *)
(* ------------------------------------------------------------------------- *)

Section WindowFacts.

Import ServerDetailPage.

Lemma slice_last_app (A : Type) (n : nat) (l r : list A) :
  slice_last n (slice_last n l ++ r) = slice_last n (l ++ r).
Proof.
  unfold slice_last. rewrite !length_app, length_skipn.
  destruct (Nat.le_gt_cases (length l) n) as [Hle|Hgt].
  - replace (length l - n)%nat with 0%nat by lia. simpl.
    now replace (length l - 0)%nat with (length l) by lia.
  - replace (length l - (length l - n) + length r - n)%nat
      with (length r) by lia.
    replace (length l + length r - n)%nat
      with (length r + (length l - n))%nat by lia.
    rewrite <- skipn_skipn. f_equal.
    rewrite skipn_app.
    replace (length l - n - length l)%nat with 0%nat by lia. reflexivity.
Qed.

Variables Metrics Point NetSample Instant : Type.
Variable server_id : Metrics -> Z.
Variable make_point : Instant -> option NetSample -> Metrics -> Point.
Variable net_sample : Instant -> Metrics -> NetSample.

Lemma run_history_window id frames : forall p : page Metrics Point NetSample,
  (length (history p) <= MAX_HISTORY)%nat ->
  history (run Metrics Point NetSample Instant server_id make_point net_sample
             id p frames)
  = slice_last MAX_HISTORY
      (history p ++ ServerDetailView.points Metrics Point NetSample Instant
                      server_id make_point net_sample id (prevNetRef p) frames).
Proof.
  induction frames as [|[now wsData] rest IH]; intros p Hp; simpl.
  - rewrite app_nil_r. unfold slice_last.
    now replace (length (history p) - MAX_HISTORY)%nat with 0%nat by lia.
  - rewrite IH by (apply on_ws_data_bounded; exact Hp).
    unfold on_ws_data.
    destruct (viewed Metrics server_id id wsData) as [m|] eqn:Hm;
      [|reflexivity].
    cbn [history prevNetRef]. unfold push_point.
    rewrite slice_last_app, <- app_assoc. reflexivity.
Qed.

(** X1.  After any sequence of broadcast frames the history buffer of the
    detail page is exactly the last 60 of all the points built for the
    viewed server, in the order the frames arrived (all of them while
    there are at most 60). *)
Theorem history_is_recent_window :
  forall id frames,
    let all := ServerDetailView.points Metrics Point NetSample Instant
                 server_id make_point net_sample id None frames in
    history (run Metrics Point NetSample Instant server_id make_point
               net_sample id initial_page frames)
    = skipn (length all - 60) all.
Proof.
  intros id frames all.
  rewrite run_history_window by (simpl; lia). reflexivity.
Qed.

End WindowFacts.

Section BytesFacts.

Import QArith Qround Qminmax Qabs Lqa.
Import ServerDetailView.
Local Open Scope Q_scope.

Lemma pow1024_pos i : (0 < 1024 ^ Z.of_nat i)%Z.
Proof. apply Z.pow_pos_nonneg; lia. Qed.

Lemma pow1024_succ i : (1024 ^ Z.of_nat (S i) = 1024 ^ Z.of_nat i * 1024)%Z.
Proof. rewrite Nat2Z.inj_succ, Z.pow_succ_r by lia. lia. Qed.

Lemma inject_Z_pos (c : Z) : (0 < c)%Z -> 0 < inject_Z c.
Proof. intros Hc. unfold Qlt. simpl. lia. Qed.

Lemma inject_Z_nonzero (c : Z) : (0 < c)%Z -> ~ inject_Z c == 0.
Proof. intros Hc H0. unfold Qeq in H0. simpl in H0. lia. Qed.

Lemma ratio_test (v : Q) (b c : Z) :
  (0 < c)%Z -> v == inject_Z b / inject_Z c ->
  Qle_bool (inject_Z 1024) v = true <-> (1024 * c <= b)%Z.
Proof.
  intros Hc Hv. rewrite Qle_bool_iff, Hv.
  assert (Hcq : 0 < inject_Z c) by (apply inject_Z_pos; exact Hc).
  split; intros H.
  - destruct (Z.le_gt_cases (1024 * c) b) as [Hle|Hgt]; [exact Hle|].
    exfalso. apply (Qlt_not_le (inject_Z b / inject_Z c) (inject_Z 1024)); [|exact H].
    apply Qlt_shift_div_r; [exact Hcq|].
    rewrite <- inject_Z_mult, <- Zlt_Qlt. lia.
  - apply Qle_shift_div_l; [exact Hcq|].
    rewrite <- inject_Z_mult, <- Zle_Qle. lia.
Qed.

Lemma ratio_step (v : Q) (b c : Z) :
  (0 < c)%Z -> v == inject_Z b / inject_Z c ->
  v / inject_Z 1024 == inject_Z b / inject_Z (c * 1024).
Proof.
  intros Hc Hv. rewrite Hv, inject_Z_mult.
  assert (~ inject_Z c == 0) by (apply inject_Z_nonzero; exact Hc).
  field. assumption.
Qed.

Lemma tenths_ratio (v : Q) (b c : Z) :
  (0 < c)%Z -> v == inject_Z b / inject_Z c ->
  tenths v = ((20 * b + c) / (2 * c))%Z.
Proof.
  intros Hc Hv. unfold tenths. rewrite Zdiv_Qdiv. apply Qfloor_comp.
  rewrite Hv, inject_Z_plus, !inject_Z_mult.
  assert (~ inject_Z c == 0) by (apply inject_Z_nonzero; exact Hc).
  field. assumption.
Qed.

Lemma scale_loop_inv fuel : forall (v : Q) (i : nat) (b : Z),
  (i <= 4)%nat -> (4 - i <= fuel)%nat ->
  v == inject_Z b / inject_Z (1024 ^ Z.of_nat i) ->
  exists v' i',
    scale_loop fuel v i = (v', i') /\ (i <= i' <= 4)%nat /\
    v' == inject_Z b / inject_Z (1024 ^ Z.of_nat i') /\
    ((i < i')%nat -> (1024 ^ Z.of_nat i' <= b)%Z) /\
    ((i' < 4)%nat -> (b < 1024 ^ Z.of_nat (S i'))%Z).
Proof.
  induction fuel as [|fuel IH]; intros v i b Hi Hfuel Hv.
  - exists v, i. simpl. repeat split; try lia; assumption.
  - cbn [scale_loop].
    pose proof (ratio_test v b _ (pow1024_pos i) Hv) as Htest.
    change (length units - 1)%nat with 4%nat.
    destruct (Qle_bool (inject_Z 1024) v) eqn:Hge; cbn [andb].
    + destruct (Nat.ltb_spec i 4) as [Hlt|Hnlt].
      * destruct (IH (v / inject_Z 1024) (S i) b) as (v' & i' & Hrun & Hle & Hv' & Hlow & Hup).
        { lia. } { lia. }
        { rewrite pow1024_succ. apply ratio_step; [apply pow1024_pos | exact Hv]. }
        exists v', i'. split; [exact Hrun|]. split; [lia|]. split; [exact Hv'|].
        split; [|exact Hup]. intros _.
        destruct (Nat.eq_dec i' (S i)) as [->|Hne]; [|apply Hlow; lia].
        rewrite pow1024_succ. pose proof (proj1 Htest eq_refl). lia.
      * exists v, i. repeat split; try lia; assumption.
    + exists v, i. split; [reflexivity|]. split; [lia|]. split; [exact Hv|].
      split; [lia|]. intros _. rewrite pow1024_succ.
      destruct (Z.le_gt_cases (1024 * 1024 ^ Z.of_nat i) b) as [Hle|Hgt]; [|lia].
      apply Htest in Hle. discriminate Hle.
Qed.

Lemma scale_loop_fuel fuel : forall (v : Q) (i : nat),
  (i <= 4)%nat -> (4 - i <= fuel)%nat ->
  scale_loop fuel v i = scale_loop (4 - i) v i.
Proof.
  induction fuel as [|fuel IH]; intros v i Hi Hfuel.
  - replace (4 - i)%nat with 0%nat by lia. reflexivity.
  - destruct (4 - i)%nat as [|k] eqn:Hk.
    + cbn [scale_loop]. change (length units - 1)%nat with 4%nat.
      destruct (Nat.ltb_spec i 4); [lia|]. now rewrite andb_false_r.
    + cbn [scale_loop]. change (length units - 1)%nat with 4%nat.
      destruct (Qle_bool (inject_Z 1024) v && (i <? 4)%nat) eqn:Htest;
        [|reflexivity].
      rewrite IH by lia. replace (4 - S i)%nat with k by lia. reflexivity.
Qed.

Lemma string_append_assoc (a b c : string) :
  ((a ++ b) ++ c = a ++ (b ++ c))%string.
Proof. induction a as [|ch a IH]; simpl; [reflexivity | now rewrite IH]. Qed.

Lemma toFixed1_nonneg (v : Q) :
  0 <= v ->
  toFixed1 v =
  (Render.show_int (tenths v / 10) ++ "." ++ Render.show_int (tenths v mod 10))%string.
Proof.
  intros Hv. unfold toFixed1.
  assert (Hb : Qle_bool 0 v = true) by (apply Qle_bool_iff; exact Hv).
  rewrite Hb. unfold tenths at 1 2.
  rewrite (Qfloor_comp (Qabs v * inject_Z 10 + (1 # 2)) (v * inject_Z 10 + (1 # 2))).
  - reflexivity.
  - rewrite (Qabs_pos v Hv). reflexivity.
Qed.

Lemma scale_loop_start (bytes : Z) :
  inject_Z bytes == inject_Z bytes / inject_Z (1024 ^ Z.of_nat 0).
Proof.
  change (1024 ^ Z.of_nat 0)%Z with 1%Z. unfold Qdiv.
  change (/ inject_Z 1) with 1. now rewrite Qmult_1_r.
Qed.

Lemma formatBytes_text (bytes : Z) (v : Q) (i : nat) :
  (1 <= bytes)%Z ->
  scale_loop 4 (inject_Z bytes) 0 = (v, i) ->
  v == inject_Z bytes / inject_Z (1024 ^ Z.of_nat i) ->
  let n := ((20 * bytes + 1024 ^ Z.of_nat i) / (2 * 1024 ^ Z.of_nat i))%Z in
  formatBytes bytes =
    (Render.show_int (n / 10) ++ "." ++ Render.show_int (n mod 10) ++ " "
     ++ nth i units "undefined")%string.
Proof.
  intros Hb Hrun Hv n. unfold formatBytes.
  destruct (Z.eqb_spec bytes 0) as [H0|_]; [lia|].
  change (length units - 1)%nat with 4%nat. rewrite Hrun.
  rewrite toFixed1_nonneg.
  - rewrite (tenths_ratio v bytes _ (pow1024_pos i) Hv). fold n.
    now rewrite !string_append_assoc.
  - rewrite Hv. apply Qle_shift_div_l; [apply inject_Z_pos, pow1024_pos|].
    rewrite Qmult_0_l. change 0 with (inject_Z 0). rewrite <- Zle_Qle. lia.
Qed.

(** X2.  [formatBytes] of a positive integer byte count below 2^53 (the
    integers a JavaScript number holds exactly, and far below the 10^21
    from which [toFixed] prints exponent notation) picks the unit B, KB,
    MB, GB or TB whose power of 1024 is the largest not above the count
    (TB for everything from 1024^4 on), and prints the count divided by
    that power rounded to the nearest tenth, a half rounding up: the
    digits are those of [(20 * bytes + 1024^i) / (2 * 1024^i)].  The loop
    has left by its own test within [units.length - 1] turns. *)
Theorem formatBytes_rounds_to_unit :
  forall bytes,
    (1 <= bytes)%Z ->
    (bytes < 2 ^ 53)%Z ->
    exists (i : nat) (n : Z),
      (i <= 4)%nat /\
      (1024 ^ Z.of_nat i <= bytes)%Z /\
      ((i < 4)%nat -> (bytes < 1024 ^ Z.of_nat (S i))%Z) /\
      n = ((20 * bytes + 1024 ^ Z.of_nat i) / (2 * 1024 ^ Z.of_nat i))%Z /\
      formatBytes bytes =
        (Render.show_int (n / 10) ++ "." ++ Render.show_int (n mod 10) ++ " "
         ++ nth i units "undefined")%string /\
      (forall fuel, (4 <= fuel)%nat ->
         scale_loop fuel (inject_Z bytes) 0 = scale_loop 4 (inject_Z bytes) 0).
Proof.
  intros bytes Hb _.
  destruct (scale_loop_inv 4 (inject_Z bytes) 0 bytes)
    as (v & i & Hrun & Hle & Hv & Hlow & Hup);
    [lia | lia | apply scale_loop_start |].
  exists i, ((20 * bytes + 1024 ^ Z.of_nat i) / (2 * 1024 ^ Z.of_nat i))%Z.
  split; [lia|]. split.
  { destruct i; [change (1024 ^ Z.of_nat 0)%Z with 1%Z; lia | apply Hlow; lia]. }
  split; [exact Hup|]. split; [reflexivity|]. split.
  - apply (formatBytes_text bytes v i Hb Hrun Hv).
  - intros fuel Hfuel. apply (scale_loop_fuel fuel (inject_Z bytes) 0); lia.
Qed.

(** X3.  The unit is chosen before rounding, so a count within a twentieth
    of a unit below the next power of 1024 is printed as "1024.0" of the
    smaller unit (KB, MB or GB) instead of "1.0" of the next. *)
Theorem formatBytes_top_of_unit :
  forall (i : nat) bytes,
    (1 <= i <= 3)%nat ->
    (20 * 1024 ^ Z.of_nat (S i) - 1024 ^ Z.of_nat i <= 20 * bytes)%Z ->
    (bytes < 1024 ^ Z.of_nat (S i))%Z ->
    formatBytes bytes = ("1024.0 " ++ nth i units "undefined")%string.
Proof.
  intros i bytes Hi Hlow Hup.
  assert (Hb : (1 <= bytes)%Z).
  { pose proof (pow1024_pos i). rewrite pow1024_succ in Hlow. lia. }
  destruct (scale_loop_inv 4 (inject_Z bytes) 0 bytes)
    as (v & i' & Hrun & Hi' & Hv & Hge & Hlt);
    [lia | lia | apply scale_loop_start |].
  assert (Hsame : i' = i).
  { destruct i as [|[|[|[|i]]]]; try lia;
      destruct i' as [|[|[|[|[|i']]]]]; try lia; try reflexivity;
      exfalso;
      try (specialize (Hlt ltac:(lia)));
      try (specialize (Hge ltac:(lia)));
      simpl in Hlow, Hup, Hge, Hlt; lia. }
  subst i'.
  rewrite (formatBytes_text bytes v i Hb Hrun Hv).
  assert (Hten : ((20 * bytes + 1024 ^ Z.of_nat i) / (2 * 1024 ^ Z.of_nat i)
                  = 10240)%Z).
  { rewrite pow1024_succ in Hlow, Hup.
    pose proof (pow1024_pos i) as Hc.
    symmetry.
    apply Z.div_unique
      with (r := (20 * bytes + 1024 ^ Z.of_nat i
                  - 10240 * (2 * 1024 ^ Z.of_nat i))%Z); lia. }
  rewrite Hten. reflexivity.
Qed.

End BytesFacts.

Section UptimeFacts.

Import Render.
Local Open Scope string_scope.

Lemma prefix_refl (s : string) : prefix s s = true.
Proof.
  induction s as [|c s IH]; [reflexivity|]. simpl.
  destruct (Ascii.ascii_dec c c); [exact IH | contradiction].
Qed.

Lemma prefix_append (a b : string) : prefix a (a ++ b) = true.
Proof.
  induction a as [|c a IH]; simpl; [destruct b; reflexivity|].
  destruct (Ascii.ascii_dec c c); [exact IH | contradiction].
Qed.

Lemma prefix_append_both (a b c : string) :
  prefix b c = true -> prefix (a ++ b) (a ++ c) = true.
Proof.
  intros H. induction a as [|ch a IH]; simpl; [exact H|].
  destruct (Ascii.ascii_dec ch ch); [exact IH | contradiction].
Qed.

(** X6.  For every integer number of seconds, the uptime text of a
    dashboard card is a prefix of the uptime text of the detail page: both
    pick the same leading unit and print the same numbers, the detail page
    adding one finer unit. *)
Theorem card_uptime_prefix_of_detail :
  forall seconds : Z,
    prefix (ServerCardView.formatUptime seconds)
           (ServerDetailView.formatUptime seconds) = true.
Proof.
  intros seconds.
  unfold ServerCardView.formatUptime, ServerDetailView.formatUptime.
  destruct (seconds =? 0)%Z; [reflexivity|]. cbv zeta.
  destruct (0 <? seconds / 86400)%Z; [|destruct (0 <? Z.rem seconds 86400 / 3600)%Z].
  - do 3 apply prefix_append_both. reflexivity.
  - do 3 apply prefix_append_both. reflexivity.
  - apply prefix_append_both. reflexivity.
Qed.

(** X5.  For a positive integer number of seconds below 2^53 (the
    integers a JavaScript number holds exactly, where [Math.floor] of the
    rounded quotient is the floor of the exact one) both [formatUptime]
    print parts of one split [seconds = 86400 d + 3600 h + 60 m + s] with [h < 24],
    [m < 60], [s < 60]: days, hours and minutes from one day on (seconds
    dropped), hours, minutes and seconds from one hour on, minutes and
    seconds below; the card prints the first two parts of these, or the
    minutes alone. *)
Theorem detail_uptime_splits_seconds :
  forall seconds : Z,
    (0 < seconds)%Z ->
    (seconds < 2 ^ 53)%Z ->
    exists d h m s : Z,
      (seconds = 86400 * d + 3600 * h + 60 * m + s)%Z /\
      (0 <= d)%Z /\ (0 <= h < 24)%Z /\ (0 <= m < 60)%Z /\ (0 <= s < 60)%Z /\
      ServerDetailView.formatUptime seconds =
        (if (86400 <=? seconds)%Z then
           show_int d ++ "d " ++ show_int h ++ "h " ++ show_int m ++ "m"
         else if (3600 <=? seconds)%Z then
           show_int h ++ "h " ++ show_int m ++ "m " ++ show_int s ++ "s"
         else show_int m ++ "m " ++ show_int s ++ "s") /\
      ServerCardView.formatUptime seconds =
        (if (86400 <=? seconds)%Z then show_int d ++ "d " ++ show_int h ++ "h"
         else if (3600 <=? seconds)%Z then
           show_int h ++ "h " ++ show_int m ++ "m"
         else show_int m ++ "m").
Proof.
  intros seconds Hpos _.
  exists (seconds / 86400)%Z, (Z.rem seconds 86400 / 3600)%Z,
         (Z.rem seconds 3600 / 60)%Z, (Z.rem seconds 60).
  rewrite !Z.rem_mod_nonneg by lia.
  pose proof (Z.div_mod seconds 86400 ltac:(lia)) as E1.
  pose proof (Z.mod_pos_bound seconds 86400 ltac:(lia)) as B1.
  pose proof (Z.div_mod seconds 3600 ltac:(lia)) as E2.
  pose proof (Z.mod_pos_bound seconds 3600 ltac:(lia)) as B2.
  pose proof (Z.div_mod seconds 60 ltac:(lia)) as E3.
  pose proof (Z.mod_pos_bound seconds 60 ltac:(lia)) as B3.
  pose proof (Z.div_mod (seconds mod 86400) 3600 ltac:(lia)) as E4.
  pose proof (Z.mod_pos_bound (seconds mod 86400) 3600 ltac:(lia)) as B4.
  pose proof (Z.div_mod (seconds mod 3600) 60 ltac:(lia)) as E5.
  pose proof (Z.mod_pos_bound (seconds mod 3600) 60 ltac:(lia)) as B5.
  set (d := (seconds / 86400)%Z) in *.
  set (h := (seconds mod 86400 / 3600)%Z) in *.
  set (m := (seconds mod 3600 / 60)%Z) in *.
  assert (Hd : (0 <= d)%Z) by (apply Z.div_pos; lia).
  assert (Hh : (0 <= h < 24)%Z) by lia.
  assert (Hm : (0 <= m < 60)%Z) by lia.
  split; [lia|]. split; [exact Hd|]. split; [exact Hh|]. split; [exact Hm|].
  split; [lia|].
  unfold ServerDetailView.formatUptime, ServerCardView.formatUptime.
  destruct (Z.eqb_spec seconds 0) as [H0|_]; [lia|]. cbv zeta.
  rewrite !Z.rem_mod_nonneg by lia. fold d h m.
  destruct (Z.leb_spec 86400 seconds) as [Hday|Hday].
  - destruct (Z.ltb_spec 0 d) as [_|Hd0]; [split; reflexivity | lia].
  - destruct (Z.ltb_spec 0 d) as [Hd1|_]; [lia|].
    destruct (Z.leb_spec 3600 seconds) as [Hhour|Hhour].
    + destruct (Z.ltb_spec 0 h) as [_|Hh0]; [split; reflexivity | lia].
    + destruct (Z.ltb_spec 0 h) as [Hh1|_]; [lia | split; reflexivity].
Qed.

End UptimeFacts.

(* ------------------------------------------------------------------------- *)
(** ** The gauge *)
(* ------------------------------------------------------------------------- *)

Section GaugeFacts.

Import QArith Qround Qminmax Qabs Lqa.
Import CircularGauge.
Local Open Scope Q_scope.

Lemma progress_cases (value : Q) :
  (value < 0 /\ progress value == 0) \/
  (0 <= value <= inject_Z 100 /\ progress value == value) \/
  (inject_Z 100 < value /\ progress value == inject_Z 100).
Proof.
  unfold progress.
  destruct (Q.max_spec value 0) as [[Hlt Hmax]|[Hle Hmax]];
    destruct (Q.min_spec (Qmax value 0) (inject_Z 100)) as [[Hlt' Hmin]|[Hle' Hmin]];
    rewrite Hmin; rewrite Hmax in *.
  - left. split; [exact Hlt | reflexivity].
  - exfalso. revert Hle'. unfold Qle. simpl. lia.
  - right. left.
    split; [split; [exact Hle | apply Qlt_le_weak; exact Hlt'] | reflexivity].
  - destruct (Qeq_dec value (inject_Z 100)) as [Heq|Hne].
    + right. left. split; [split; [exact Hle | rewrite Heq; apply Qle_refl]|].
      symmetry. exact Heq.
    + right. right. split; [|reflexivity].
      apply Qle_lteq in Hle'. destruct Hle' as [H|H]; [exact H|]. symmetry in H. contradiction.
Qed.

Lemma getColor_comp (x y : Q) : x == y -> getColor x = getColor y.
Proof.
  intros H. unfold getColor, Qltb.
  rewrite (Qleb_comp (inject_Z 60) (inject_Z 60) (Qeq_refl _) x y H).
  rewrite (Qleb_comp (inject_Z 85) (inject_Z 85) (Qeq_refl _) x y H).
  reflexivity.
Qed.

Lemma Qltb_lt (x y : Q) : Qltb x y = true <-> x < y.
Proof.
  unfold Qltb. rewrite negb_true_iff. split; intros H.
  - apply Qnot_le_lt. intros Hle. apply Qle_bool_iff in Hle. congruence.
  - destruct (Qle_bool y x) eqn:Hb; [|reflexivity].
    apply Qle_bool_iff in Hb. exfalso. exact (Qlt_not_le _ _ H Hb).
Qed.

(** X4.  Whatever value the gauge is given, the progress it draws lies
    between 0 and 100 and so does the rounded percentage in its centre;
    clamping never changes the colour, which is green below 60, red from
    85 on and yellow in between; the centre reads 100 exactly from 99.5
    on. *)
Theorem gauge_stays_in_range :
  forall value : Q,
    0 <= progress value /\ progress value <= inject_Z 100 /\
    (0 <= Math_round (progress value) <= 100)%Z /\
    colour value = getColor value /\
    (colour value = "#00ff88"%string <-> value < inject_Z 60) /\
    (colour value = "#ff4444"%string <-> inject_Z 85 <= value) /\
    (Math_round (progress value) = 100%Z <-> 199 # 2 <= value).
Proof.
  intros value.
  assert (Hrange : 0 <= progress value /\ progress value <= inject_Z 100).
  { destruct (progress_cases value) as [[H Hp]|[[H Hp]|[H Hp]]]; rewrite Hp;
      split; try apply H; try apply Qle_refl; unfold Qle; simpl; lia. }
  destruct Hrange as [H0 H100].
  assert (Hround : (0 <= Math_round (progress value) <= 100)%Z).
  { unfold Math_round. split.
    - rewrite <- (Qfloor_Z 0). apply Qfloor_resp_le.
      change (inject_Z 0) with 0. lra.
    - change 100%Z with (Qfloor (201 # 2)). apply Qfloor_resp_le.
      change (inject_Z 100) with (100 # 1) in H100. lra. }
  assert (Hcol : colour value = getColor value).
  { unfold colour.
    destruct (progress_cases value) as [[H Hp]|[[H Hp]|[H Hp]]];
      rewrite (getColor_comp _ _ Hp); try reflexivity;
      unfold getColor.
    - assert (H1 : Qltb value (inject_Z 60) = true)
        by (apply Qltb_lt; change (inject_Z 60) with (60 # 1); lra).
      now rewrite H1.
    - assert (H1 : Qltb value (inject_Z 60) = false).
      { destruct (Qltb value (inject_Z 60)) eqn:E; [|reflexivity].
        apply Qltb_lt in E. change (inject_Z 60) with (60 # 1) in E.
        change (inject_Z 100) with (100 # 1) in H. lra. }
      assert (H2 : Qltb value (inject_Z 85) = false).
      { destruct (Qltb value (inject_Z 85)) eqn:E; [|reflexivity].
        apply Qltb_lt in E. change (inject_Z 85) with (85 # 1) in E.
        change (inject_Z 100) with (100 # 1) in H. lra. }
      now rewrite H1, H2. }
  split; [exact H0|]. split; [exact H100|]. split; [exact Hround|].
  split; [exact Hcol|]. rewrite Hcol. unfold getColor.
  split; [|split].
  - destruct (Qltb value (inject_Z 60)) eqn:E.
    + apply Qltb_lt in E. tauto.
    + split; intros H.
      * destruct (Qltb value (inject_Z 85)); discriminate H.
      * apply Qltb_lt in H. congruence.
  - destruct (Qltb value (inject_Z 60)) eqn:E60.
    + apply Qltb_lt in E60. split; [discriminate|].
      intros H. exfalso. change (inject_Z 60) with (60 # 1) in E60.
      change (inject_Z 85) with (85 # 1) in H. lra.
    + destruct (Qltb value (inject_Z 85)) eqn:E85.
      * apply Qltb_lt in E85. split; [discriminate|].
        intros H. exfalso. exact (Qlt_not_le _ _ E85 H).
      * split; [|reflexivity]. intros _.
        apply Qnot_lt_le. intros H. apply Qltb_lt in H. congruence.
  - unfold Math_round in *. split; intros H.
    + pose proof (Qfloor_le (progress value + (1 # 2))) as Hfl.
      rewrite H in Hfl. change (inject_Z 100) with (100 # 1) in *.
      destruct (progress_cases value) as [[Hv Hp]|[[Hv Hp]|[Hv Hp]]];
        rewrite Hp in Hfl; change (inject_Z 100) with (100 # 1) in *; lra.
    + apply Z.le_antisymm; [apply Hround|].
      change 100%Z with (Qfloor (inject_Z 100)). apply Qfloor_resp_le.
      change (inject_Z 100) with (100 # 1) in *.
      destruct (progress_cases value) as [[Hv Hp]|[[Hv Hp]|[Hv Hp]]];
        rewrite Hp; change (inject_Z 100) with (100 # 1) in *; lra.
Qed.
End GaugeFacts.

(* ------------------------------------------------------------------------- *)
(** ** The dashboard *)
(* ------------------------------------------------------------------------- *)

Section DashboardFacts.

Import DashboardPage.

Variable Metrics : Type.
Variable server_id : Metrics -> Z.
Variable metrics_is_online : Metrics -> option bool.

Lemma find_filter_other (k k' : Z) (map : list (Z * Metrics)) :
  k' <> k ->
  find (fun e => fst e =? k) (filter (fun e => negb (fst e =? k')) map)
  = find (fun e => fst e =? k) map.
Proof.
  intros Hne. induction map as [|[j m] map IH]; simpl; [reflexivity|].
  destruct (Z.eqb_spec j k') as [->|Hj]; simpl.
  - destruct (Z.eqb_spec k' k); [contradiction | exact IH].
  - destruct (j =? k); [reflexivity | exact IH].
Qed.

Lemma lookup_assign (k k' : Z) (m : Metrics) (map : list (Z * Metrics)) :
  lookup Metrics k (assign Metrics k' m map)
  = if k' =? k then Some m else lookup Metrics k map.
Proof.
  unfold lookup, assign. simpl.
  destruct (Z.eqb_spec k' k) as [_|Hne]; [reflexivity|].
  now rewrite find_filter_other.
Qed.

Lemma metricsMap_snoc (servers : list Metrics) (m : Metrics) :
  metricsMap Metrics server_id (Some (Some (servers ++ [m])))
  = assign Metrics (server_id m) m
      (metricsMap Metrics server_id (Some (Some servers))).
Proof. unfold metricsMap. now rewrite fold_left_app. Qed.

Lemma lookup_metricsMap (servers : list Metrics) (k : Z) :
  lookup Metrics k (metricsMap Metrics server_id (Some (Some servers)))
  = find (fun m => server_id m =? k) (rev servers).
Proof.
  induction servers as [|m servers IH] using rev_ind; [reflexivity|].
  rewrite metricsMap_snoc, lookup_assign, rev_app_distr. simpl.
  destruct (server_id m =? k); [reflexivity | exact IH].
Qed.

Lemma find_app (A : Type) (p : A -> bool) (l1 l2 : list A) :
  find p (l1 ++ l2) = match find p l1 with
                      | Some x => Some x
                      | None => find p l2
                      end.
Proof.
  induction l1 as [|a l1 IH]; simpl; [reflexivity|].
  destruct (p a); [reflexivity | exact IH].
Qed.

Lemma find_rev_unique (servers : list Metrics) (k : Z) :
  NoDup (map server_id servers) ->
  find (fun m => server_id m =? k) (rev servers)
  = find (fun m => server_id m =? k) servers.
Proof.
  induction servers as [|m servers IH]; intros Hnd; [reflexivity|].
  simpl in *. inversion Hnd as [|x xs Hnotin Hnd']; subst.
  rewrite find_app, (IH Hnd'). simpl.
  destruct (Z.eqb_spec (server_id m) k) as [Hk|Hk].
  - destruct (find (fun m0 => server_id m0 =? k) servers) as [m'|] eqn:Hf;
      [|reflexivity].
    apply find_some in Hf. destruct Hf as [Hin Heq].
    apply Z.eqb_eq in Heq. exfalso. apply Hnotin.
    rewrite Hk, <- Heq. apply in_map. exact Hin.
  - destruct (find (fun m0 => server_id m0 =? k) servers); reflexivity.
Qed.

(** X7.  [metricsMap[k]] is the last entry of the frame whose [server_id]
    is [k] (undefined when there is none); when no two entries of the
    frame share an id it is the entry the detail page's [find] returns. *)
Theorem dashboard_last_entry_wins :
  forall (servers : list Metrics) (k : Z),
    lookup Metrics k (metricsMap Metrics server_id (Some (Some servers)))
    = find (fun m => server_id m =? k) (rev servers) /\
    (NoDup (map server_id servers) ->
     lookup Metrics k (metricsMap Metrics server_id (Some (Some servers)))
     = ServerDetailPage.viewed Metrics server_id (Some k)
         (Some (Some servers))).
Proof.
  intros servers k. split; [apply lookup_metricsMap|].
  intros Hnd. rewrite lookup_metricsMap. apply find_rev_unique. exact Hnd.
Qed.

(** X8.  The "n/m servers online" count of the dashboard header counts
    the servers whose card receives a true raw online flag (the flag
    before the card's debounce), and never exceeds the number of
    servers. *)
Theorem dashboard_counts_raw_flags :
  forall (map : list (Z * Metrics)) (servers : list server),
    onlineCount Metrics metrics_is_online map servers
    = length (filter (fun s => ServerCard.rawOnline
                                 (card_props Metrics metrics_is_online map s))
                     servers) /\
    (onlineCount Metrics metrics_is_online map servers <= length servers)%nat.
Proof.
  intros map servers. unfold onlineCount. split.
  - f_equal. apply filter_ext. intros s.
    unfold card_props, ServerCard.rawOnline, ServerCard.nullish, truthy. simpl.
    destruct (live_flag Metrics metrics_is_online map s) as [b|];
      [reflexivity|]. destruct (is_online s); reflexivity.
  - apply filter_length_le.
Qed.

End DashboardFacts.

(* ------------------------------------------------------------------------- *)
(** ** Stored credentials *)
(* ------------------------------------------------------------------------- *)

Section ApiFacts.

Import Api.
Local Open Scope string_scope.

Lemma getItem_removeItem_same k t : getItem k (removeItem k t) = None.
Proof.
  unfold getItem, removeItem.
  induction t as [|[j v] t IH]; simpl; [reflexivity|].
  destruct (String.eqb_spec j k) as [->|Hne]; simpl; [exact IH|].
  destruct (String.eqb_spec j k); [contradiction | exact IH].
Qed.

Lemma getItem_removeItem_other k k' t :
  k' <> k -> getItem k (removeItem k' t) = getItem k t.
Proof.
  intros Hne. unfold getItem, removeItem.
  induction t as [|[j v] t IH]; simpl; [reflexivity|].
  destruct (String.eqb_spec j k') as [->|Hj]; simpl.
  - destruct (String.eqb_spec k' k); [contradiction | exact IH].
  - destruct (String.eqb j k); [reflexivity | exact IH].
Qed.

Lemma getItem_setItem_same k v t : getItem k (setItem k v t) = Some v.
Proof. unfold getItem, setItem. simpl. now rewrite String.eqb_refl. Qed.

Lemma getItem_setItem_other k k' v t :
  k' <> k -> getItem k (setItem k' v t) = getItem k t.
Proof.
  intros Hne. unfold setItem.
  change (getItem k ((k', v) :: removeItem k' t))
    with (match (if String.eqb k' k then Some (k', v)
                 else find (fun e => String.eqb (fst e) k) (removeItem k' t))
          with Some e => Some (snd e) | None => None end).
  destruct (String.eqb_spec k' k); [contradiction|].
  now apply getItem_removeItem_other.
Qed.

(** X9.  The response interceptor always passes the error on.  On a 401
    it removes the stored token and the stored user, leaves every other
    key of localStorage alone, and navigates to /login unless the page is
    already there; on any other error (or none with a response) it
    changes nothing. *)
Theorem unauthorized_clears_credentials :
  forall (err : error) (b : browser),
    let (b', rejected) := response_error err b in
    rejected = err /\
    pathname b' = pathname b /\
    (response_status err = Some 401%Z ->
       getItem TOKEN_KEY (localStorage b') = None /\
       getItem USER_KEY (localStorage b') = None /\
       (forall k, k <> TOKEN_KEY -> k <> USER_KEY ->
                  getItem k (localStorage b') = getItem k (localStorage b)) /\
       navigated b' =
         (if String.eqb (pathname b) "/login" then navigated b
          else Some "/login")) /\
    (response_status err <> Some 401%Z -> b' = b).
Proof.
  intros err b. unfold response_error.
  destruct (response_status err) as [st|] eqn:Hst.
  2:{ split; [reflexivity|]. split; [reflexivity|].
      split; [discriminate | reflexivity]. }
  destruct (Z.eqb_spec st 401) as [->|Hne].
  2:{ split; [reflexivity|]. split; [reflexivity|].
      split; [congruence | reflexivity]. }
  destruct (String.eqb (pathname b) "/login") eqn:Hp; cbn [negb];
    cbn [localStorage pathname navigated];
    (split; [reflexivity|]); (split; [reflexivity|]);
    (split; [|intros Hno; congruence]); intros _;
    (split; [|split; [|split; [|reflexivity]]]).
  - rewrite getItem_removeItem_other by discriminate.
    apply getItem_removeItem_same.
  - apply getItem_removeItem_same.
  - intros k Ht Hu. now rewrite !getItem_removeItem_other by congruence.
  - rewrite getItem_removeItem_other by discriminate.
    apply getItem_removeItem_same.
  - apply getItem_removeItem_same.
  - intros k Ht Hu. now rewrite !getItem_removeItem_other by congruence.
Qed.

End ApiFacts.

Section AuthFacts.

Import Api AuthContext.
Local Open Scope string_scope.

Variable stringify : userData -> string.
Variable parse : string -> option userData.

Lemma truthy_nonempty (s : string) : s <> "" -> truthy (Some s) = true.
Proof. destruct s; [contradiction | reflexivity]. Qed.

Lemma stored_token_after_login r b a :
  stored_token (fst (fst (login stringify (Fulfilled r) b a)))
  = Some (access_token r).
Proof.
  unfold stored_token, login. cbn [fst localStorage].
  rewrite getItem_setItem_other by discriminate.
  apply getItem_setItem_same.
Qed.

Lemma stored_token_after_logout b a :
  stored_token (fst (logout b a)) = None.
Proof.
  unfold stored_token, logout. cbn [fst localStorage].
  rewrite getItem_removeItem_other by discriminate.
  apply getItem_removeItem_same.
Qed.

Lemma stored_token_after_401 err b :
  response_status err = Some 401%Z ->
  stored_token (fst (response_error err b)) = None.
Proof.
  intros H401. unfold stored_token, response_error. rewrite H401.
  cbn [Z.eqb Pos.eqb].
  destruct (negb (String.eqb (pathname b) "/login")); cbn [fst localStorage];
    (rewrite getItem_removeItem_other by discriminate;
     apply getItem_removeItem_same).
Qed.

Lemma response_error_rejects err b : snd (response_error err b) = err.
Proof.
  unfold response_error.
  destruct (match response_status err with
            | Some status => (status =? 401)%Z
            | None => false
            end); [|reflexivity].
  now destruct (negb (String.eqb (pathname b) "/login")).
Qed.

Lemma response_error_other err b :
  response_status err <> Some 401%Z -> fst (response_error err b) = b.
Proof.
  intros Hne. unfold response_error.
  destruct (response_status err) as [st|]; [|reflexivity].
  destruct (Z.eqb_spec st 401) as [->|_]; [congruence | reflexivity].
Qed.

Lemma request_without_token b headers :
  stored_token b = None -> request_interceptor b headers = headers.
Proof. unfold stored_token, request_interceptor. now intros ->. Qed.

(** X10.  After a successful login with a non-empty access token, the
    token is what storage and the provider state hold, every request
    leaves the interceptor with [Authorization: Bearer <token>] and its
    other headers untouched, and a provider initialised from storage
    (a reload) finds the same token and, when the stored user parses back,
    the same user.  A login whose request is rejected passes the error on
    and leaves the provider state as it was; storage is then what the
    response interceptor made of it: unchanged unless the status was 401,
    and without token and user (and on the way to /login unless the page
    is already there) when it was. *)
Theorem login_attaches_bearer :
  forall (r : login_response) (b : browser) (a : auth) (headers : table),
    access_token r <> "" ->
    let b' := fst (fst (login stringify (Fulfilled r) b a)) in
    let a' := snd (fst (login stringify (Fulfilled r) b a)) in
    let u := mkUser (resp_username r) (resp_user_id r) in
    stored_token b' = Some (access_token r) /\
    token a' = Some (access_token r) /\ user a' = Some u /\
    getItem "Authorization" (request_interceptor b' headers)
      = Some ("Bearer " ++ access_token r) /\
    (forall k, k <> "Authorization" ->
       getItem k (request_interceptor b' headers) = getItem k headers) /\
    (parse (stringify u) = Some u -> stringify u <> "" ->
     initial parse b' = a') /\
    (forall err : error,
       let out := login stringify (Rejected err) b a in
       snd (fst out) = a /\ snd out = inr err /\
       (response_status err <> Some 401%Z -> fst (fst out) = b) /\
       (response_status err = Some 401%Z ->
        stored_token (fst (fst out)) = None /\
        getItem USER_KEY (localStorage (fst (fst out))) = None /\
        navigated (fst (fst out))
          = (if String.eqb (pathname b) "/login" then navigated b
             else Some "/login"))).
Proof.
  intros r b a headers Htok b' a' u.
  pose proof (stored_token_after_login r b a) as Hst. fold b' in Hst.
  assert (Hreq : request_interceptor b' headers
                 = setItem "Authorization" ("Bearer " ++ access_token r) headers).
  { unfold request_interceptor. unfold stored_token in Hst. rewrite Hst.
    now rewrite truthy_nonempty. }
  split; [exact Hst|]. split; [reflexivity|]. split; [reflexivity|].
  split; [rewrite Hreq; apply getItem_setItem_same|].
  split; [intros k Hk; rewrite Hreq; apply getItem_setItem_other; congruence|].
  split.
  { intros Hparse Hne. unfold initial. unfold stored_token in Hst. rewrite Hst.
    assert (Hu : getItem USER_KEY (localStorage b') = Some (stringify u)).
    { subst b'. unfold login. cbn [fst localStorage].
      apply getItem_setItem_same. }
    rewrite Hu, (truthy_nonempty _ Hne), Hparse. reflexivity. }
  intros err out. subst out. unfold login. cbn [fst snd].
  split; [reflexivity|]. split; [now rewrite response_error_rejects|].
  split; [apply response_error_other|].
  intros H401. split; [now apply stored_token_after_401|].
  unfold response_error. rewrite H401. cbn [Z.eqb Pos.eqb].
  destruct (String.eqb (pathname b) "/login"); cbn [negb fst localStorage navigated];
    (split; [apply getItem_removeItem_same | reflexivity]).
Qed.

(** X11.  After [logout], and after a 401 handled by the response
    interceptor, no token is stored, the request interceptor returns the
    headers as it got them, and a provider initialised from storage has
    neither token nor user. *)
Theorem logout_detaches_bearer :
  forall (b : browser) (a : auth) (headers : table) (err : error),
    (let b' := fst (logout b a) in
     stored_token b' = None /\
     request_interceptor b' headers = headers /\
     snd (logout b a) = mkAuth None None /\
     initial parse b' = mkAuth None None) /\
    (response_status err = Some 401%Z ->
     let b' := fst (response_error err b) in
     stored_token b' = None /\
     request_interceptor b' headers = headers /\
     initial parse b' = mkAuth None None).
Proof.
  intros b a headers err.
  assert (Hinit : forall b0, stored_token b0 = None ->
                    getItem USER_KEY (localStorage b0) = None ->
                    initial parse b0 = mkAuth None None).
  { intros b0 Ht Hu. unfold initial. unfold stored_token in Ht.
    now rewrite Ht, Hu. }
  split.
  - pose proof (stored_token_after_logout b a) as Hst.
    split; [exact Hst|]. split; [apply request_without_token, Hst|].
    split; [reflexivity|]. apply Hinit; [exact Hst|].
    unfold logout. cbn [fst localStorage]. apply getItem_removeItem_same.
  - intros H401. pose proof (stored_token_after_401 err b H401) as Hst.
    split; [exact Hst|]. split; [apply request_without_token, Hst|].
    apply Hinit; [exact Hst|].
    unfold response_error. rewrite H401. cbn [Z.eqb Pos.eqb].
    destruct (negb (String.eqb (pathname b) "/login")); cbn [fst localStorage];
      apply getItem_removeItem_same.
Qed.

(** X12.  What [connect] of a mounted subscription hook does follows the
    stored credentials: after a login with a non-empty token it opens one
    new socket and reports 'connecting'; after a logout or a handled 401
    it opens none, sets no timer and reports 'disconnected'. *)
Theorem subscription_follows_credentials :
  forall (Frame : Type) (h : UseWebSocket.hook Frame)
         (r : login_response) (b : browser) (a : auth) (err : error),
    UseWebSocket.isMountedRef h = true ->
    let reconnect_with b' :=
      UseWebSocket.connect
        (UseWebSocket.set_token Frame (stored_token b') h) in
    (access_token r <> "" ->
     let h' := reconnect_with (fst (fst (login stringify (Fulfilled r) b a))) in
     UseWebSocket.status h' = "connecting" /\
     UseWebSocket.sockets h'
       = (UseWebSocket.sockets h ++ [UseWebSocket.CONNECTING])%list /\
     UseWebSocket.wsRef h' = Some (List.length (UseWebSocket.sockets h))) /\
    (let h' := reconnect_with (fst (logout b a)) in
     UseWebSocket.status h' = "disconnected" /\
     UseWebSocket.sockets h' = UseWebSocket.sockets h /\
     UseWebSocket.timers h' = UseWebSocket.timers h) /\
    (response_status err = Some 401%Z ->
     let h' := reconnect_with (fst (response_error err b)) in
     UseWebSocket.status h' = "disconnected" /\
     UseWebSocket.sockets h' = UseWebSocket.sockets h /\
     UseWebSocket.timers h' = UseWebSocket.timers h).
Proof.
  intros Frame h r b a err Hm reconnect_with. subst reconnect_with. cbv beta.
  split; [|split].
  - intros Htok. rewrite stored_token_after_login.
    unfold UseWebSocket.connect. cbn [UseWebSocket.isMountedRef
      UseWebSocket.set_token UseWebSocket.token]. rewrite Hm. cbn [negb].
    destruct (access_token r) as [|c s]; [contradiction|].
    cbn [UseWebSocket.no_token]. repeat split.
  - rewrite stored_token_after_logout.
    unfold UseWebSocket.connect. cbn [UseWebSocket.isMountedRef
      UseWebSocket.set_token UseWebSocket.token]. rewrite Hm. repeat split.
  - intros H401. rewrite (stored_token_after_401 err b H401).
    unfold UseWebSocket.connect. cbn [UseWebSocket.isMountedRef
      UseWebSocket.set_token UseWebSocket.token]. rewrite Hm. repeat split.
Qed.

End AuthFacts.

(* ------------------------------------------------------------------------- *)
(** ** Paging of the audit log *)
(* ------------------------------------------------------------------------- *)

Section PagingFacts.

Import AuditLogPage.

Lemma act_page_positive p a : 1 <= page p -> 1 <= page (act p a).
Proof.
  intros Hp. destruct a; simpl; try exact Hp.
  - unfold click_prev. destruct (bar_shown p && negb (prev_disabled p));
      simpl; lia.
  - unfold click_next. destruct (bar_shown p) eqn:Hbar; simpl; [|exact Hp].
    destruct (next_disabled p); simpl; [exact Hp|].
    unfold bar_shown in Hbar. apply Z.ltb_lt in Hbar. lia.
Qed.

(** X13.  Whatever is clicked and whatever the server answers, the page
    of the audit log that is requested is at least 1.  While the page lies
    between 1 and the reported number of pages, both buttons keep it
    there, move by exactly one when not at an end, undo each other, and do
    nothing at the end they point to. *)
Theorem audit_page_stays_valid :
  (forall actions, 1 <= page (acts initial actions)) /\
  (forall p,
     1 <= page p <= totalPages p ->
     1 <= page (click_next p) <= totalPages p /\
     1 <= page (click_prev p) <= totalPages p /\
     totalPages (click_next p) = totalPages p /\
     totalPages (click_prev p) = totalPages p /\
     (page p < totalPages p ->
      page (click_next p) = page p + 1 /\ click_prev (click_next p) = p) /\
     (1 < page p ->
      page (click_prev p) = page p - 1 /\ click_next (click_prev p) = p) /\
     (page p = totalPages p -> click_next p = p) /\
     (page p = 1 -> click_prev p = p)).
Proof.
  split.
  - intros actions. unfold acts.
    assert (H : forall p, 1 <= page p -> 1 <= page (fold_left act actions p)).
    { induction actions as [|a actions IH]; intros p Hp; simpl;
        [exact Hp | apply IH, act_page_positive, Hp]. }
    apply H. simpl. lia.
  - intros [pg tp tot] [Hlo Hhi]. simpl in Hlo, Hhi.
    unfold click_next, click_prev, bar_shown, prev_disabled, next_disabled.
    cbn [page totalPages total].
    destruct (Z.ltb_spec 1 tp) as [Hbar|Hbar];
      destruct (Z.leb_spec tp pg) as [Hlast|Hlast];
      destruct (Z.leb_spec pg 1) as [Hfirst|Hfirst];
      cbn [andb negb page totalPages total];
      repeat match goal with
             | |- context [(?a <? ?b)] => destruct (Z.ltb_spec a b)
             | |- context [(?a <=? ?b)] => destruct (Z.leb_spec a b)
             end;
      cbn [andb negb page totalPages total];
      repeat split; try lia; intros; try lia;
      try (f_equal; lia).
Qed.

End PagingFacts.

(* ------------------------------------------------------------------------- *)
(** ** More on the subscription hook and the card *)
(* ------------------------------------------------------------------------- *)

Section HookMoreFacts.

Import UseWebSocket.

Variable Frame : Type.
Variable JSON_parse : string -> option Frame.

Abbreviation hook := (UseWebSocket.hook Frame).
Abbreviation step := (UseWebSocket.step JSON_parse).
Abbreviation run := (UseWebSocket.run JSON_parse).

Ltac hk_fields :=
  cbn [data status wsRef reconnectTimeoutRef retryCountRef isMountedRef
       token sockets timers next_handle console
       set_data set_status set_wsRef set_reconnectTimeoutRef
       set_retryCountRef set_isMountedRef set_token set_sockets set_timers
       log set_sock setTimeout fst snd andb negb] in *.

Ltac hk_unfold :=
  unfold UseWebSocket.step, effect, cleanup, disconnect, teardown,
         connect, onopen, onmessage, onclose, onerror, ws_close, set_sock,
         sock in *.

Ltac hk_cases :=
  repeat (hk_fields;
          match goal with
          | |- context [negb ?b] => is_var b; destruct b
          | |- context [andb ?b _] => is_var b; destruct b
          | |- context [match nth_error ?l ?i with _ => _ end] =>
              destruct (nth_error l i) as [[| | |]|] eqn:?
          | |- context [if ?b then _ else _] => destruct b eqn:?
          | |- context [match ?r with Some _ => _ | None => _ end] =>
              destruct r eqn:?
          | |- context [match ?r with CONNECTING => _ | _ => _ end] =>
              destruct r eqn:?
          end).

Lemma backoff_delay_range n : 1000 <= backoff_delay n <= 30000.
Proof.
  unfold backoff_delay.
  assert (0 < 2 ^ Z.of_nat n) by (apply Z.pow_pos_nonneg; lia). lia.
Qed.

Lemma backoff_delay_mono n m :
  (n <= m)%nat -> backoff_delay n <= backoff_delay m.
Proof.
  intros Hnm. unfold backoff_delay.
  assert (2 ^ Z.of_nat n <= 2 ^ Z.of_nat m) by (apply Z.pow_le_mono_r; lia).
  lia.
Qed.

Lemma clearTimeout_In r (l : list (nat * Z)) x :
  In x (clearTimeout r l) -> In x l.
Proof.
  unfold clearTimeout. destruct r as [id|]; [|tauto].
  intros H. apply filter_In in H. tauto.
Qed.

Lemma step_timers_origin (h : hook) e x :
  In x (timers (step h e)) ->
  In x (timers h) \/ snd x = backoff_delay (retryCountRef h).
Proof.
  destruct h as [d s w r n m tk so ti nh co].
  destruct e; hk_unfold; hk_cases; hk_fields; intros Hin;
    try (left; exact Hin);
    try (left; eapply clearTimeout_In; exact Hin);
    try (apply in_app_or in Hin; destruct Hin as [Hin|[<-|[]]];
         [left; exact Hin | right; reflexivity]).
Qed.

(** X14.  Every reconnect timer pending in any state the hook reaches
    has a delay between 1000 and 30000 ms, and the delay never decreases
    as the retry counter grows. *)
Theorem reconnect_delays_bounded :
  (forall tok tr,
     Forall (fun t => 1000 <= snd t <= 30000)
            (timers (run (initial tok) tr))) /\
  (forall n m, (n <= m)%nat -> backoff_delay n <= backoff_delay m).
Proof.
  split; [|exact backoff_delay_mono].
  intros tok tr.
  assert (H : forall (h : hook),
            Forall (fun t => 1000 <= snd t <= 30000) (timers h) ->
            Forall (fun t => 1000 <= snd t <= 30000) (timers (run h tr))).
  { induction tr as [|e tr IH]; intros h Hh; simpl; [exact Hh|].
    apply IH. apply Forall_forall. intros x Hx.
    destruct (step_timers_origin h e x Hx) as [Hold|Hnew].
    - rewrite Forall_forall in Hh. exact (Hh x Hold).
    - rewrite Hnew. apply backoff_delay_range. }
  apply H. constructor.
Qed.

(** X15.  The latest frame the hook exposes changes only when a message
    that parses arrives on an open socket of a mounted hook, and then it
    is that parsed message; no other event touches it. *)
Theorem frame_changes_only_by_message :
  forall (h : hook) e,
    data (step h e) = data h \/
    exists ws payload parsed,
      e = WsMessage ws payload /\ JSON_parse payload = Some parsed /\
      sock ws h = Some OPEN /\ isMountedRef h = true /\
      data (step h e) = Some parsed.
Proof.
  intros h e. destruct h as [d s w r n m tk so ti nh co].
  destruct e; try (left; hk_unfold; hk_cases; reflexivity).
  unfold UseWebSocket.step, onmessage, sock. hk_fields.
  destruct (nth_error so ws) as [[| | |]|] eqn:Hs; try (left; reflexivity).
  destruct m; cbn [negb]; [|left; reflexivity].
  destruct (JSON_parse payload) as [parsed|] eqn:Hp; [|left; reflexivity].
  right. exists ws, payload, parsed. repeat split; assumption.
Qed.

(** X16.  Take a hook whose mount effect has run exactly once (not a
    second time after a cleanup, as it does under [React.StrictMode] in
    development) and whose returned [reconnect] has not been called, so
    that after the mount only the hook's own timers have invoked
    [connect].  While it is mounted it has at most one socket that is not
    closed, the one in [wsRef], and no reconnect timer while it has one;
    at most one timer is pending, the one in [reconnectTimeoutRef].
    (After a second run of the effect on the same instance two sockets
    can be alive and two timers pending at once.) *)
Theorem one_connection_at_a_time :
  forall tok tr,
    Forall (fun e => invokes_connect e = false) tr ->
    let h := run (initial tok) (Mount :: tr) in
    isMountedRef h = true ->
    (forall ws st, sock ws h = Some st -> st <> CLOSED ->
       wsRef h = Some ws /\ timers h = []) /\
    (forall ws ws' st st',
       sock ws h = Some st -> st <> CLOSED ->
       sock ws' h = Some st' -> st' <> CLOSED -> ws = ws') /\
    (length (timers h) <= 1)%nat /\
    (forall id delay, In (id, delay) (timers h) ->
       reconnectTimeoutRef h = Some id).
Proof.
  intros tok tr Htr h Hm.
  pose proof (run_tidy Frame JSON_parse tr _ (mount_tidy Frame JSON_parse tok) Htr)
    as Ht.
  change (tidy h) in Ht. unfold tidy in Ht. rewrite Hm in Ht.
  destruct Ht as [HA HB].
  assert (Hlive : forall ws st, sock ws h = Some st -> st <> CLOSED ->
                    wsRef h = Some ws /\ timers h = []).
  { intros ws st Hs Hne. split; [exact (HA ws st Hs Hne)|].
    destruct HB as [Hnil|[_ Hall]]; [exact Hnil|].
    now rewrite (Hall ws st Hs) in Hne. }
  split; [exact Hlive|]. split; [|split].
  - intros ws ws' st st' Hs Hne Hs' Hne'.
    destruct (Hlive ws st Hs Hne) as [Hw _].
    destruct (Hlive ws' st' Hs' Hne') as [Hw' _]. congruence.
  - destruct HB as [Hnil|[(id & delay & Hone & _) _]].
    + rewrite Hnil. simpl. lia.
    + rewrite Hone. simpl. lia.
  - intros id delay Hin.
    destruct HB as [Hnil|[(id' & delay' & Hone & Hr) _]].
    + rewrite Hnil in Hin. destruct Hin.
    + rewrite Hone in Hin. destruct Hin as [Heq|[]]. congruence.
Qed.

(** X17.  Take again a hook whose mount effect has run exactly once (not
    a second time after a cleanup) and whose returned [reconnect] has not
    been called.  With a token stored, a close event that the hook handles
    as an unexpected close, followed by its timer elapsing, amounts to
    exactly one reconnect attempt: the closed socket is marked closed, one
    new socket is connecting and held in [wsRef], the status is
    'connecting', no timer is left, the retry counter has grown by one and
    the latest frame is kept. *)
Theorem close_then_timer_reconnects :
  forall tok tr ws,
    Forall (fun e => invokes_connect e = false) tr ->
    let h := run (initial tok) (Mount :: tr) in
    closes h (WsClose ws) = true ->
    no_token (token h) = false ->
    let h2 := run h [WsClose ws; Timeout (next_handle h)] in
    sockets h2 = set_nth ws CLOSED (sockets h) ++ [CONNECTING] /\
    wsRef h2 = Some (length (sockets h)) /\
    status h2 = "connecting"%string /\
    timers h2 = [] /\
    retryCountRef h2 = S (retryCountRef h) /\
    isMountedRef h2 = true /\
    data h2 = data h.
Proof.
  intros tok tr ws Htr h Hclose Htok h2.
  assert (Hm : isMountedRef h = true).
  { unfold closes in Hclose. destruct (isMountedRef h); [reflexivity|].
    discriminate Hclose. }
  assert (Hs : exists st, sock ws h = Some st /\ st <> CLOSED).
  { unfold closes in Hclose. rewrite Hm in Hclose. cbn [andb] in Hclose.
    destruct (sock ws h) as [[| | |]|]; try discriminate Hclose;
      eexists; split; try reflexivity; discriminate. }
  destruct Hs as (st & Hs & Hne).
  assert (Hnil : timers h = []).
  { pose proof (run_tidy Frame JSON_parse tr _
                  (mount_tidy Frame JSON_parse tok) Htr) as Ht.
    change (tidy h) in Ht. unfold tidy in Ht. rewrite Hm in Ht.
    destruct Ht as [_ [Hnil|[_ Hall]]]; [exact Hnil|].
    now rewrite (Hall ws st Hs) in Hne. }
  subst h2. clear Hclose. clearbody h.
  destruct h as [d s w r n m tk so ti nh co].
  unfold sock in Hs. hk_fields. subst m ti.
  cbn [UseWebSocket.run UseWebSocket.step]. unfold sock. hk_fields.
  rewrite Hs.
  assert (Hstep1 :
    (match st with
     | CLOSED => mkHook Frame d s w r n true tk so [] nh co
     | _ => onclose (set_sock Frame ws CLOSED
                       (mkHook Frame d s w r n true tk so [] nh co))
     end)
    = mkHook Frame d "disconnected" None (Some nh) (n + 1) true tk
        (set_nth ws CLOSED so) [(nh, backoff_delay n)] (S nh)
        (Log_reconnect (backoff_delay n) :: co)).
  { destruct st; try reflexivity. contradiction. }
  rewrite Hstep1. hk_fields. cbn [is_pending existsb fst].
  rewrite Nat.eqb_refl. cbn [orb].
  unfold clearTimeout. cbn [filter fst]. rewrite Nat.eqb_refl. cbn [negb].
  unfold connect. hk_fields. rewrite Htok. hk_fields.
  rewrite length_set_nth, Nat.add_1_r. repeat split.
Qed.

(** X18.  For every status the hook can reach, the sidebar dot finds a
    colour and a label in its tables (never undefined); it reads 'Live'
    exactly when the status is 'connected', and it reads 'Live' or
    'Offline' exactly when the dashboard header does. *)
Theorem status_dot_always_labelled :
  forall tok tr,
    let st := status (run (initial tok) tr) in
    exists colour label,
      Layout.WSStatusDot st = (Some colour, Some label) /\
      (label = "Live"%string <-> st = "connected"%string) /\
      (label = "Live"%string <-> DashboardPage.ws_label st = "Live"%string) /\
      (label = "Offline"%string <->
       DashboardPage.ws_label st = "Offline"%string).
Proof.
  intros tok tr st.
  destruct (run_status_ok Frame JSON_parse tr _ (initial_status_ok Frame tok))
    as [_ Hdom].
  fold st in Hdom.
  destruct Hdom as [H|[H|H]]; rewrite H; eexists; eexists;
    (split; [reflexivity|]);
    repeat split; intros Heq; try reflexivity; try discriminate Heq.
Qed.

End HookMoreFacts.

Section CardMoreFacts.

Import ServerCard.

(** X19.  Along any sequence of updates a card has at most one grace
    timer pending; a pending timer is the one whose handle is in
    [offlineTimerRef] and the raw flag is then false; with a null ref no
    timer is pending; and the card shows offline only while the raw flag
    is false. *)
Theorem card_one_timer_at_most :
  forall t0 p0 updates,
    let c := run (mount t0 p0) updates in
    (length (pending c) <= 1)%nat /\
    (forall h due, In (h, due) (pending c) ->
       offlineTimerRef c = Some h /\ lastRaw c = false) /\
    (offlineTimerRef c = None -> pending c = []) /\
    (isOnline c = false -> lastRaw c = false).
Proof.
  intros t0 p0 updates c.
  pose proof (run_wf updates _ (mount_wf t0 p0)) as [Hsingle Hraw].
  fold c in Hsingle, Hraw. unfold single_timer in Hsingle.
  assert (Hfalse : offlineTimerRef c <> None -> lastRaw c = false).
  { intros Hsome. destruct (lastRaw c); [|reflexivity].
    destruct (Hraw eq_refl) as [_ Hnone]. contradiction. }
  split; [|split; [|split]].
  - destruct (offlineTimerRef c) as [h|].
    + destruct Hsingle as [due Hp]. rewrite Hp. simpl. lia.
    + rewrite Hsingle. simpl. lia.
  - intros h due Hin. destruct (offlineTimerRef c) as [h'|] eqn:Href.
    + destruct Hsingle as [due' Hp]. rewrite Hp in Hin.
      destruct Hin as [Heq|[]]. injection Heq as -> _.
      split; [reflexivity | apply Hfalse; discriminate].
    + rewrite Hsingle in Hin. destruct Hin.
  - intros Hnone. rewrite Hnone in Hsingle. exact Hsingle.
  - intros Hoff. destruct (lastRaw c); [|reflexivity].
    destruct (Hraw eq_refl) as [Hon _]. congruence.
Qed.

End CardMoreFacts.

(* ------------------------------------------------------------------------- *)
(** ** Instances                                                              *)
(* ------------------------------------------------------------------------- *)

(** 1536 bytes are printed with one decimal and one of the five units. *)
Lemma formatBytes_rounds_to_unit_witness :
  exists (i : nat) (n : Z),
    (i <= 4)%nat /\
    ServerDetailView.formatBytes 1536 =
      (Render.show_int (n / 10) ++ "." ++ Render.show_int (n mod 10) ++ " "
       ++ nth i ServerDetailView.units "undefined")%string.
Proof.
  destruct (formatBytes_rounds_to_unit 1536 ltac:(lia) eq_refl)
    as (i & n & Hi & _ & _ & _ & Htext & _).
  exists i, n. split; [exact Hi | exact Htext].
Defined.

(** One byte short of a mebibyte is printed as 1024.0 KB. *)
Lemma formatBytes_top_of_unit_witness :
  ServerDetailView.formatBytes 1048575 = "1024.0 KB"%string.
Proof.
  apply (formatBytes_top_of_unit 1 1048575); simpl; lia.
Defined.

(** One day, one hour, one minute and one second. *)
Lemma detail_uptime_splits_seconds_witness :
  ServerDetailView.formatUptime 90061 = "1d 1h 1m"%string /\
  ServerCardView.formatUptime 90061 = "1d 1h"%string.
Proof.
  destruct (detail_uptime_splits_seconds 90061 ltac:(lia) eq_refl)
    as (d & h & m & s & Heq & Hd & Hh & Hm & Hs & Hdetail & Hcard).
  assert (d = 1) by lia. assert (h = 1) by lia. assert (m = 1) by lia.
  subst d h m. split; [exact Hdetail | exact Hcard].
Defined.

(** A load of exactly 85 is drawn red. *)
Lemma gauge_stays_in_range_witness :
  CircularGauge.colour (QArith_base.inject_Z 85) = "#ff4444"%string.
Proof.
  destruct (gauge_stays_in_range (QArith_base.inject_Z 85))
    as (_ & _ & _ & _ & _ & Hred & _).
  apply Hred. unfold QArith_base.Qle. simpl. lia.
Defined.

(** With distinct ids the dashboard and the detail page read the same
    entry for server 7. *)
Lemma dashboard_last_entry_wins_witness :
  DashboardPage.lookup (Z * Z) 7
    (DashboardPage.metricsMap (Z * Z) fst
       (Some (Some [Samples.entry 3 1; Samples.entry 7 99])))
  = Some (7, 99).
Proof.
  destruct (dashboard_last_entry_wins (Z * Z) fst
              [Samples.entry 3 1; Samples.entry 7 99] 7) as [_ Hsame].
  rewrite Hsame; [reflexivity|].
  repeat constructor; simpl; intuition discriminate.
Defined.

(** A 401 on a server page: credentials gone, theme kept, off to /login. *)
Lemma unauthorized_clears_credentials_witness :
  let b := Api.mkBrowser
             [("serverpilot_token", "jwt"); ("theme", "dark");
              ("serverpilot_user", "admin")]%string
             "/servers/3" None in
  let b' := fst (Api.response_error (Api.mkError (Some 401) "expired") b) in
  Api.getItem Api.TOKEN_KEY (Api.localStorage b') = None /\
  Api.getItem "theme" (Api.localStorage b') = Some "dark"%string /\
  Api.navigated b' = Some "/login"%string.
Proof.
  intros b b'.
  pose proof (unauthorized_clears_credentials
                (Api.mkError (Some 401) "expired") b) as H.
  rewrite (surjective_pairing
             (Api.response_error (Api.mkError (Some 401) "expired") b)) in H.
  fold b' in H. destruct H as (_ & _ & H401 & _).
  destruct (H401 eq_refl) as (Htoken & _ & Hother & Hnav).
  split; [exact Htoken|]. split; [|exact Hnav].
  rewrite Hother; [reflexivity | discriminate | discriminate].
Defined.

(** Logging in as admin makes the next request carry the token; a login
    refused with a 401 leaves no token in storage. *)
Lemma login_attaches_bearer_witness :
  let r := AuthContext.mkLogin "jwt" "admin" 1 in
  let b := Api.mkBrowser [] "/login" None in
  let b' := fst (fst (AuthContext.login AuthContext.username
                        (Api.Fulfilled r) b
                        (AuthContext.mkAuth None None))) in
  Api.getItem "Authorization" (Api.request_interceptor b' [])
  = Some "Bearer jwt"%string /\
  AuthContext.stored_token
    (fst (fst (AuthContext.login AuthContext.username
                 (Api.Rejected (Api.mkError (Some 401) "wrong password")) b'
                 (AuthContext.mkAuth None None))))
  = None.
Proof.
  intros r b b'.
  destruct (login_attaches_bearer AuthContext.username (fun _ => None)
              r b (AuthContext.mkAuth None None) [])
    as (_ & _ & _ & Hheader & _).
  { discriminate. }
  split; [exact Hheader|].
  destruct (login_attaches_bearer AuthContext.username (fun _ => None)
              r b' (AuthContext.mkAuth None None) [])
    as (_ & _ & _ & _ & _ & _ & Hrejected).
  { discriminate. }
  destruct (Hrejected (Api.mkError (Some 401) "wrong password"))
    as (_ & _ & _ & H401).
  exact (proj1 (H401 eq_refl)).
Defined.

(** After a 401 the next request carries no token of its own. *)
Lemma logout_detaches_bearer_witness :
  let b := Api.mkBrowser [("serverpilot_token", "jwt")]%string "/audit" None in
  Api.request_interceptor
    (fst (Api.response_error (Api.mkError (Some 401) "expired") b))
    [("Accept", "application/json")]%string
  = [("Accept", "application/json")]%string.
Proof.
  intros b.
  destruct (logout_detaches_bearer (fun _ => None) b
              (AuthContext.mkAuth (Some "jwt"%string) None)
              [("Accept", "application/json")]%string
              (Api.mkError (Some 401) "expired")) as [_ H401].
  destruct (H401 eq_refl) as (_ & Hsame & _). exact Hsame.
Defined.

(** A hook that reconnects after a logout does not open a socket. *)
Lemma subscription_follows_credentials_witness :
  let b := Api.mkBrowser [("serverpilot_token", "jwt")]%string "/" None in
  let a := AuthContext.mkAuth (Some "jwt"%string) None in
  let h := UseWebSocket.initial (Frame := bool) (Some "jwt"%string) in
  UseWebSocket.sockets
    (UseWebSocket.connect
       (UseWebSocket.set_token bool
          (AuthContext.stored_token (fst (AuthContext.logout b a))) h))
  = [].
Proof.
  intros b a h.
  destruct (subscription_follows_credentials AuthContext.username bool h
              (AuthContext.mkLogin "jwt" "admin" 1) b a
              (Api.mkError None "timeout") eq_refl)
    as (_ & Hlogout & _).
  destruct Hlogout as (_ & Hsockets & _). exact Hsockets.
Defined.

(** On page 2 of 5, Next goes to page 3 and Previous comes back. *)
Lemma audit_page_stays_valid_witness :
  let p := AuditLogPage.mkPager 2 5 230 in
  AuditLogPage.page (AuditLogPage.click_next p) = 3 /\
  AuditLogPage.click_prev (AuditLogPage.click_next p) = p.
Proof.
  intros p.
  destruct audit_page_stays_valid as [_ Hclicks].
  destruct (Hclicks p) as (_ & _ & _ & _ & Hnext & _).
  - simpl. lia.
  - apply Hnext. simpl. lia.
Defined.

(** The fourth retry never waits less than the third. *)
Lemma reconnect_delays_bounded_witness :
  UseWebSocket.backoff_delay 3 <= UseWebSocket.backoff_delay 4.
Proof.
  destruct (reconnect_delays_bounded bool Samples.parse_literal)
    as [_ Hmono].
  apply Hmono. lia.
Defined.

(** After a first failure and its retry, one socket is alive and no timer
    is pending. *)
Lemma one_connection_at_a_time_witness :
  let h := UseWebSocket.run Samples.parse_literal
             (UseWebSocket.initial (Some "jwt"%string))
             (UseWebSocket.Mount
                :: [UseWebSocket.WsClose 0; UseWebSocket.Timeout 1]) in
  UseWebSocket.wsRef h = Some 1%nat /\ UseWebSocket.timers h = [].
Proof.
  intros h.
  destruct (one_connection_at_a_time bool Samples.parse_literal
              (Some "jwt"%string)
              [UseWebSocket.WsClose 0; UseWebSocket.Timeout 1])
    as (Hlive & _).
  - repeat constructor.
  - reflexivity.
  - apply (Hlive 1%nat UseWebSocket.CONNECTING); [reflexivity | discriminate].
Defined.

(** An open connection that drops is retried once its timer elapses. *)
Lemma close_then_timer_reconnects_witness :
  let h := UseWebSocket.run Samples.parse_literal
             (UseWebSocket.initial (Some "jwt"%string))
             (UseWebSocket.Mount :: [UseWebSocket.WsOpen 0]) in
  let h2 := UseWebSocket.run Samples.parse_literal h
              [UseWebSocket.WsClose 0; UseWebSocket.Timeout 1] in
  UseWebSocket.status h2 = "connecting"%string /\
  UseWebSocket.sockets h2 = [UseWebSocket.CLOSED; UseWebSocket.CONNECTING].
Proof.
  intros h h2.
  destruct (close_then_timer_reconnects bool Samples.parse_literal
              (Some "jwt"%string) [UseWebSocket.WsOpen 0] 0%nat)
    as (Hsockets & _ & Hstatus & _).
  - repeat constructor.
  - reflexivity.
  - reflexivity.
  - split; [exact Hstatus | exact Hsockets].
Defined.

(** Inside the grace period the one pending timer is the one in the ref. *)
Lemma card_one_timer_at_most_witness :
  let c := ServerCard.run (ServerCard.mount 0 ServerCard.online_props)
             [(5000, ServerCard.offline_props)] in
  ServerCard.offlineTimerRef c = Some 1%nat /\ ServerCard.lastRaw c = false.
Proof.
  intros c.
  destruct (card_one_timer_at_most 0 ServerCard.online_props
              [(5000, ServerCard.offline_props)]) as (_ & Hpending & _).
  apply (Hpending 1%nat 17000). left. reflexivity.
Defined.
